(** * docker-volume-watcher: the container notifier

    A shallow embedding of [docker_volume_watcher/container_notifier.py]
    (the [debounce] decorator, [NonZeroExitError] and [ContainerNotifier])
    together with the properties its specification states about the
    debounce gate, the path translation, the event filter and the
    two-step notification transaction.

    Conventions.  Python 3 semantics.  A [str] is a list of code points,
    [bytes] a list of bytes.  Code that logs, reads the clock, raises or
    talks to the container runs in a state-and-exception monad [M S]; the
    state of the outside world is [Env], and [World] adds the store that
    holds the dictionaries captured by closures.  [time.time()] is read as
    an exact rational number of seconds. *)

From Stdlib Require Import ZArith NArith QArith Lqa List String Ascii Bool Lia.
From stdpp Require Import base option list gmap.
Import ListNotations.

(* ================================================================== *)
(** * Python strings and bytes *)
(* ================================================================== *)

Module Py.

Definition str := list N.
Definition bytes := list Byte.byte.

(** The [str] (resp. [bytes]) written by an ASCII literal. *)
Definition lit (s : string) : str := map N_of_ascii (list_ascii_of_string s).
Definition blit (s : string) : bytes := list_byte_of_string s.

Definition str_eqb (a b : str) : bool := bool_decide (a = b).

(** [not s]: the sequence is empty. *)
Definition is_empty {A} (l : list A) : bool :=
  match l with [] => true | _ => false end.

Fixpoint startswith (s prefix : str) {struct prefix} : bool :=
  match prefix, s with
  | [], _ => true
  | p :: ps, c :: cs => N.eqb c p && startswith cs ps
  | _ :: _, [] => false
  end.

Definition endswith (s suffix : str) : bool :=
  startswith (rev s) (rev suffix).

(** [s.replace(old, new)] for one-character [old] and [new]. *)
Definition replace (old new : N) (s : str) : str :=
  map (fun c => if N.eqb c old then new else c) s.

(** [s.split(sep)] for a one-character separator: never empty. *)
Fixpoint split (sep : N) (s : str) : list str :=
  match s with
  | [] => [[]]
  | c :: r =>
      if N.eqb c sep then [] :: split sep r
      else match split sep r with
           | w :: ws => (c :: w) :: ws
           | [] => [[c]]
           end
  end.

(** [sep.join(parts)]. *)
Fixpoint join (sep : str) (parts : list str) : str :=
  match parts with
  | [] => []
  | [p] => p
  | p :: ps => p ++ sep ++ join sep ps
  end.

(** [str.isspace] on one code point (the whitespace table of CPython). *)
Definition isspace (c : N) : bool :=
  ((0x09 <=? c) && (c <=? 0x0D) || (0x1C <=? c) && (c <=? 0x20)
   || (c =? 0x85) || (c =? 0xA0) || (c =? 0x1680)
   || (0x2000 <=? c) && (c <=? 0x200A)
   || (c =? 0x2028) || (c =? 0x2029) || (c =? 0x202F)
   || (c =? 0x205F) || (c =? 0x3000))%N.

Fixpoint lstrip (s : str) : str :=
  match s with
  | c :: r => if isspace c then lstrip r else s
  | [] => []
  end.

Definition rstrip (s : str) : str := rev (lstrip (rev s)).

(** [s.strip()]. *)
Definition strip (s : str) : str := rstrip (lstrip s).

(** ** Strict UTF-8 decoding, [bytes.decode('utf-8')] *)

Definition between (lo hi b : N) : bool := ((lo <=? b) && (b <=? hi))%N.
Definition cont (b : N) : bool := between 0x80 0xBF b.
Definition low6 (b : N) : N := N.land b 0x3F.

(** Range allowed for the byte that follows lead byte [b0]: it excludes
    overlong forms, surrogates and code points above U+10FFFF. *)
Definition second_ok (b0 b1 : N) : bool :=
  (if b0 =? 0xE0 then between 0xA0 0xBF b1
   else if b0 =? 0xED then between 0x80 0x9F b1
   else if b0 =? 0xF0 then between 0x90 0xBF b1
   else if b0 =? 0xF4 then between 0x80 0x8F b1
   else cont b1)%N.

Fixpoint decode_points (bs : list N) : option str :=
  match bs with
  | [] => Some []
  | b0 :: r0 =>
      if (b0 <? 0x80)%N then cons b0 <$> decode_points r0
      else if between 0xC2 0xDF b0 then
        match r0 with
        | b1 :: r1 =>
            if cont b1
            then cons (N.lor (N.shiftl (N.land b0 0x1F) 6) (low6 b1))
                   <$> decode_points r1
            else None
        | _ => None
        end
      else if between 0xE0 0xEF b0 then
        match r0 with
        | b1 :: b2 :: r2 =>
            if second_ok b0 b1 && cont b2
            then cons (N.lor (N.shiftl (N.land b0 0x0F) 12)
                         (N.lor (N.shiftl (low6 b1) 6) (low6 b2)))
                   <$> decode_points r2
            else None
        | _ => None
        end
      else if between 0xF0 0xF4 b0 then
        match r0 with
        | b1 :: b2 :: b3 :: r3 =>
            if second_ok b0 b1 && cont b2 && cont b3
            then cons (N.lor (N.shiftl (N.land b0 0x07) 18)
                         (N.lor (N.shiftl (low6 b1) 12)
                            (N.lor (N.shiftl (low6 b2) 6) (low6 b3))))
                   <$> decode_points r3
            else None
        | _ => None
        end
      else None
  end.

(** [None] stands for [UnicodeDecodeError]. *)
Definition decode_utf8 (b : bytes) : option str :=
  decode_points (map Byte.to_N b).

End Py.

Import Py.

(* ================================================================== *)
(** * Exceptions and the state-and-exception monad *)
(* ================================================================== *)

Inductive Exn : Type :=
| APIError                              (* docker.errors.APIError *)
| NonZeroExitError (exit_code : Z)      (* source, lines 45-52 *)
| UnicodeDecodeError
| ValueError.

Inductive Result (A : Type) : Type :=
| Returns (a : A)
| Raises (e : Exn).
Arguments Returns {A} a.
Arguments Raises {A} e.

Definition M (S A : Type) : Type := S -> Result A * S.

Definition ret {S A} (a : A) : M S A := fun s => (Returns a, s).

Definition raise {S A} (e : Exn) : M S A := fun s => (Raises e, s).

Definition bind {S A B} (m : M S A) (k : A -> M S B) : M S B :=
  fun s =>
    match m s with
    | (Returns a, s') => k a s'
    | (Raises e, s') => (Raises e, s')
    end.

(** [try: body  except ...: handler]: [handler e = None] when no [except]
    clause matches [e], which then propagates. *)
Definition try_except {S A} (body : M S A) (handler : Exn -> option (M S A))
  : M S A :=
  fun s =>
    match body s with
    | (Returns a, s') => (Returns a, s')
    | (Raises e, s') =>
        match handler e with
        | Some h => h s'
        | None => (Raises e, s')
        end
    end.

Declare Scope py_scope.
Delimit Scope py_scope with py.
Notation "x <- m ;; k" := (bind m (fun x => k))
  (at level 100, m at next level, right associativity) : py_scope.
Notation "m ;;; k" := (bind m (fun _ => k))
  (at level 100, right associativity) : py_scope.
Open Scope py_scope.

(** A pure computation that may raise. *)
Definition of_result {S A} (r : Result A) : M S A := fun s => (r, s).

(* ================================================================== *)
(** * [posixpath]: the functions the notifier uses *)
(* ================================================================== *)

Module posixpath.

Definition sep : str := lit "/".
Definition curdir : str := lit ".".
Definition pardir : str := lit "..".

Definition isabs (s : str) : bool := startswith s sep.

(** [posixpath.join(a, b)]. *)
Definition join (a b : str) : str :=
  if startswith b sep then b
  else if is_empty a || endswith a sep then a ++ b
  else a ++ sep ++ b.

(** [posixpath.join(a, *p)]. *)
Definition join_all (a : str) (p : list str) : str := foldl join a p.

Definition initial_slashes (path : str) : nat :=
  if startswith path sep then
    if startswith path (sep ++ sep) && negb (startswith path (sep ++ sep ++ sep))
    then 2 else 1
  else 0.

(** One turn of the loop of [normpath] over the components. *)
Definition norm_step (slashes : nat) (new_comps : list str) (comp : str)
  : list str :=
  if str_eqb comp [] || str_eqb comp curdir then new_comps
  else if negb (str_eqb comp pardir)
          || (Nat.eqb slashes 0 && is_empty new_comps)
          || (negb (is_empty new_comps) && str_eqb (List.last new_comps []) pardir)
  then new_comps ++ [comp]
  else removelast new_comps.

Definition normpath (path : str) : str :=
  if is_empty path then curdir
  else
    let slashes := initial_slashes path in
    let comps := foldl (norm_step slashes) [] (split 47 path) in
    let path' := Py.join sep comps in
    let path' := concat (replicate slashes sep) ++ path' in
    if is_empty path' then curdir else path'.

(** [abspath]; [cwd] is the value of [os.getcwd()]. *)
Definition abspath (cwd path : str) : str :=
  normpath (if isabs path then path else join cwd path).

(** Longest common prefix of two component lists
    ([genericpath.commonprefix] on a pair of lists). *)
Fixpoint commonprefix (a b : list str) : list str :=
  match a, b with
  | x :: a', y :: b' => if str_eqb x y then x :: commonprefix a' b' else []
  | _, _ => []
  end.

Definition components (path : str) : list str :=
  List.filter (fun x => negb (is_empty x)) (split 47 path).

(** [posixpath.relpath(path, start)]. *)
Definition relpath (cwd path start : str) : Result str :=
  if is_empty path then Raises ValueError
  else
    let start_list := components (abspath cwd start) in
    let path_list := components (abspath cwd path) in
    let i := length (commonprefix start_list path_list) in
    let rel_list := replicate (length start_list - i) pardir ++ drop i path_list in
    match rel_list with
    | [] => Returns curdir
    | a :: p => Returns (join_all a p)
    end.

End posixpath.

(* ================================================================== *)
(** * The outside world: clock, log, container *)
(* ================================================================== *)

Inductive Level : Type := INFO | ERROR.

Inductive LogArg : Type := ArgStr (s : str) | ArgInt (z : Z).

(** One call of [logging.info] or [logging.error]: the message, its
    arguments and the [exc_info] flag. *)
Record LogRecord : Type := {
  level : Level;
  msg : str;
  args : list LogArg;
  exc_info : bool
}.

(** One call of [exec_run] received by the container runtime. *)
Record ExecCall : Type := {
  target : str;
  cmd : list str;
  privileged : bool
}.

(** [docker]'s [ExecResult(exit_code, output)]. *)
Record ExecResult : Type := {
  exit_code : Z;
  output : bytes
}.

(** A named tuple with two fields is never empty, hence always true. *)
Definition ExecResult_bool (_ : ExecResult) : bool := true.

Inductive ExecOutcome : Type :=
| Completed (r : ExecResult)
| TransportError.                       (* [exec_run] raises [APIError] *)

Record ExecReply : Type := {
  elapsed : Q;                          (* seconds the call blocks *)
  outcome : ExecOutcome
}.

(** The container handle: its name and what its runtime answers to a
    command, given the commands received so far. *)
Record Container : Type := {
  name : str;
  runtime : list ExecCall -> list str -> bool -> ExecReply
}.

Record Env : Type := {
  now : Q;                              (* what [time.time()] returns *)
  log : list LogRecord;
  execs : list ExecCall
}.

Definition time_time : M Env Q := fun e => (Returns (now e), e).

Definition set_now (t : Q) (e : Env) : Env :=
  {| now := t; log := log e; execs := execs e |}.

Definition logging_info (m : str) (a : list LogArg) : M Env unit :=
  fun e =>
    (Returns tt,
     {| now := now e;
        log := log e ++ [{| level := INFO; msg := m; args := a; exc_info := false |}];
        execs := execs e |}).

Definition logging_error (m : str) (a : list LogArg) (exc : bool) : M Env unit :=
  fun e =>
    (Returns tt,
     {| now := now e;
        log := log e ++ [{| level := ERROR; msg := m; args := a; exc_info := exc |}];
        execs := execs e |}).

(** [container.exec_run(cmd, privileged=p)]: the call blocks for the time
    the runtime takes, then returns the result or raises [APIError]. *)
Definition exec_run (c : Container) (argv : list str) (p : bool) : M Env ExecResult :=
  fun e =>
    let reply := runtime c (execs e) argv p in
    let e' := {| now := (now e + elapsed reply)%Q;
                 log := log e;
                 execs := execs e ++ [{| target := name c; cmd := argv; privileged := p |}] |} in
    match outcome reply with
    | Completed r => (Returns r, e')
    | TransportError => (Raises APIError, e')
    end.

(** [b.decode('utf-8')]. *)
Definition decode {S} (b : bytes) : M S str :=
  match decode_utf8 b with
  | Some s => ret s
  | None => raise UnicodeDecodeError
  end.

(* ================================================================== *)
(** * [debounce] (source, lines 14-43) *)
(* ================================================================== *)

(** The store of the dictionaries [{'value': ...}] that closures capture:
    a location maps to the value held under the key ['value'].  A location
    that was never allocated reads as [None]. *)
Record World : Type := {
  env : Env;
  cells : gmap nat (option Q)
}.

Definition lift {A} (m : M Env A) : M World A :=
  fun w =>
    match m (env w) with
    | (r, e) => (r, {| env := e; cells := cells w |})
    end.

(** [{'value': v}]: a new dictionary, at a location not in use. *)
Definition new_dict (v : option Q) : M World nat :=
  fun w =>
    let l := fresh (dom (cells w)) in
    (Returns l, {| env := env w; cells := <[l := v]> (cells w) |}).

(** [d['value']] and [d['value'] = v]. *)
Definition getitem (d : nat) : M World (option Q) :=
  fun w => (Returns (default None (cells w !! d)), w).

Definition setitem (d : nat) (v : option Q) : M World unit :=
  fun w => (Returns tt, {| env := env w; cells := <[d := v]> (cells w) |}).

Section debounce.

Context {Args Val : Type}.
Variable PyNone : Val.                (* Python's [None] in [Val] *)
Variable bounce_delay : Q.
Variable my_function : Args -> M Env Val.

(** The test of line 37:
    [old_time['value'] is None or new_time - old_time['value'] >= bounce_delay]. *)
Definition may_fire (old : option Q) (new_time : Q) : bool :=
  match old with
  | None => true
  | Some t => Qle_bool bounce_delay (new_time - t)
  end.

Definition wrapped (old_time : nat) (args : Args) : M World Val :=
  new_time <- lift time_time ;;
  old <- getitem old_time ;;
  if may_fire old new_time then
    result <- lift (my_function args) ;;
    t <- lift time_time ;;
    (setitem old_time (Some t) ;;;
     ret result)
  else ret PyNone.

Definition decorate : M World (Args -> M World Val) :=
  old_time <- new_dict None ;;
  ret (wrapped old_time).

End debounce.

Definition debounce {Args Val} (PyNone : Val) (bounce_delay : Q)
  : (Args -> M Env Val) -> M World (Args -> M World Val) :=
  decorate PyNone bounce_delay.

(* ================================================================== *)
(** * File system events and the pattern-matching handler *)
(* ================================================================== *)

(** The events of the observation library.  Only a move event has a
    [dest_path] attribute. *)
Inductive FileSystemEvent : Type :=
| Created (dir : bool) (src : str)
| Modified (dir : bool) (src : str)
| Deleted (dir : bool) (src : str)
| Moved (dir : bool) (src dest : str).

Definition is_directory (ev : FileSystemEvent) : bool :=
  match ev with
  | Created d _ | Modified d _ | Deleted d _ | Moved d _ _ => d
  end.

Definition src_path (ev : FileSystemEvent) : str :=
  match ev with
  | Created _ s | Modified _ s | Deleted _ s | Moved _ s _ => s
  end.

(** [Some d] exactly when [hasattr(event, 'dest_path')]. *)
Definition dest_path (ev : FileSystemEvent) : option str :=
  match ev with
  | Moved _ _ d => Some d
  | _ => None
  end.

(** [PatternMatchingEventHandler] as the notifier builds it: [patterns] is
    left to its default, so every path is a candidate (the include list is
    the single pattern [*]); the four slots are the methods the library
    calls, by kind of event. *)
Record PatternMatchingEventHandler : Type := {
  ignore_patterns : option (list str);
  ignore_directories : bool;
  on_created : FileSystemEvent -> M World unit;
  on_modified : FileSystemEvent -> M World unit;
  on_moved : FileSystemEvent -> M World unit;
  on_deleted : FileSystemEvent -> M World unit
}.

Section watchdog.

(** The glob test of the library, [path_match pattern path], with the
    case handling the handler's defaults give it. *)
Variable path_match : str -> str -> bool.

Definition star : str := lit "*".

(** One path against the include list [*] and the exclude list; a
    pattern present in both lists is an error. *)
Definition match_path (path : str) (excluded : list str) : Result bool :=
  if existsb (str_eqb star) excluded then Raises ValueError
  else Returns (path_match star path
                && negb (existsb (fun p => path_match p path) excluded)).

(** The library's [match_any_paths]: true as soon as one of the paths
    passes. *)
Fixpoint match_any_paths (paths : list str) (excluded : list str) : Result bool :=
  match paths with
  | [] => Returns false
  | p :: ps =>
      match match_path p excluded with
      | Raises e => Raises e
      | Returns true => Returns true
      | Returns false => match_any_paths ps excluded
      end
  end.

(** The paths [dispatch] matches: [dest_path] when the event has one,
    then [src_path] when it is not empty. *)
Definition event_paths (ev : FileSystemEvent) : list str :=
  match dest_path ev with Some d => [d] | None => [] end
  ++ (if is_empty (src_path ev) then [] else [src_path ev]).

(** [PatternMatchingEventHandler.dispatch] of the observation library
    (watchdog): a directory event is dropped when [ignore_directories] is
    set; otherwise the paths of the event are matched and, if one passes,
    the method for the kind of event is called. *)
Definition dispatch (h : PatternMatchingEventHandler) (ev : FileSystemEvent)
  : M World unit :=
  if ignore_directories h && is_directory ev then ret tt
  else
    ok <- of_result (match_any_paths (event_paths ev)
                       (default [] (ignore_patterns h))) ;;
    if ok : bool then
      match ev with
      | Created _ _ => on_created h ev
      | Modified _ _ => on_modified h ev
      | Moved _ _ _ => on_moved h ev
      | Deleted _ _ => on_deleted h ev
      end
    else ret tt.

End watchdog.

(** The observer thread, as far as the notifier is concerned: the handler
    it was scheduled with and whether it has been started. *)
Record Observer : Type := {
  event_handler : PatternMatchingEventHandler;
  watch_path : str;
  recursive : bool;
  started : bool
}.

(* ================================================================== *)
(** * [ContainerNotifier] (source, lines 54-139) *)
(* ================================================================== *)

(** The attributes of [self] that the methods read. *)
Record ContainerNotifier : Type := {
  container : Container;
  host_dir : str;
  container_dir : str
}.

(** [notify] (lines 99-131). *)
Definition notify (self : ContainerNotifier) (absolute_path : str) : M Env unit :=
  logging_info (lit "Notifying container %s about change in %s")
    [ArgStr (name (container self)); ArgStr absolute_path] ;;;
  try_except
    (permissions <- exec_run (container self)
                      [lit "stat"; lit "-c"; lit "%a"; absolute_path] true ;;
     if negb (exit_code permissions =? 0)%Z
     then raise (NonZeroExitError (exit_code permissions))
     else
       decoded <- decode (output permissions) ;;
       let permissions := strip decoded in
       response <- exec_run (container self)
                     [lit "chmod"; permissions; absolute_path] true ;;
       if negb (exit_code response =? 0)%Z
       then raise (NonZeroExitError (exit_code response))
       else if ExecResult_bool response
       then (text <- decode (output response) ;;
             logging_info (strip text) [])
       else ret tt)
    (fun e =>
       match e with
       | APIError =>
           Some (logging_error
                   (lit "Failed to notify container %s about change in %s")
                   [ArgStr (name (container self)); ArgStr absolute_path] true)
       | NonZeroExitError code =>
           Some (logging_error
                   (lit "Exec run returned non-zero exit code: %s")
                   [ArgInt code] false)
       | _ => None
       end).

Section ContainerNotifier.

(** [os.path.relpath] of the host platform, and the glob test of the
    observation library. *)
Variable relpath : str -> str -> Result str.
Variable path_match : str -> str -> bool.

(** The path that lines 94-96 compute. *)
Definition host_path (event : FileSystemEvent) : str :=
  match dest_path event with
  | Some d => d
  | None => src_path event
  end.

(** The body of [__change_handler] (lines 93-97), before decoration. *)
Definition __change_handler (args : ContainerNotifier * FileSystemEvent)
  : M Env unit :=
  let '(self, event) := args in
  let host_path := host_path event in
  r <- of_result (relpath host_path (host_dir self)) ;;
  let relative_host_path := replace 92 47 r in
  let absolute_path := posixpath.join (container_dir self) relative_host_path in
  notify self absolute_path.

(** The class object: its body runs once and applies [@debounce(2)] to
    [__change_handler] (line 92); [handler] is the decorated method. *)
Record Class : Type := {
  handler : ContainerNotifier * FileSystemEvent -> M World unit
}.

Definition class_body : M World Class :=
  h <- debounce tt 2 __change_handler ;;
  ret {| handler := h |}.

(** The class whose decorated method keeps its timestamp at [old_time]. *)
Definition decorated_class (old_time : nat) : Class :=
  {| handler := wrapped tt 2 __change_handler old_time |}.

(** [__init__] (lines 59-84): the new object and the observer it starts;
    [handler cls (self, _)] is the bound method [self.__change_handler]. *)
Definition __init__ (cls : Class) (container : Container)
    (host_dir container_dir : str) (exclude_patterns : option (list str))
  : ContainerNotifier * Observer :=
  let self := {| container := container; host_dir := host_dir;
                 container_dir := container_dir |} in
  let exclude_patterns :=
    match exclude_patterns with
    | Some (p :: ps) => p :: ps
    | _ => []
    end in
  let event_handler :=
    {| ignore_patterns := Some exclude_patterns;
       ignore_directories := false;
       on_created := fun event => handler cls (self, event);
       on_moved := fun event => handler cls (self, event);
       on_modified := fun event => handler cls (self, event);
       on_deleted := fun _ => ret tt |} in
  (self, {| event_handler := event_handler; watch_path := host_dir;
            recursive := true; started := true |}).

(** An event the started observer delivers to its handler. *)
Definition emit (o : Observer) (ev : FileSystemEvent) : M World unit :=
  if started o then dispatch path_match (event_handler o) ev else ret tt.

(** [__str__] (lines 86-87). *)
Definition __str__ (self : ContainerNotifier) : str :=
  host_dir self ++ lit " -> " ++ name (container self) ++ lit ":"
  ++ container_dir self.

(** [stop] (lines 133-139): the observer thread is stopped and joined. *)
Definition stop (o : Observer) : Observer :=
  {| event_handler := event_handler o; watch_path := watch_path o;
     recursive := recursive o; started := false |}.

End ContainerNotifier.

(* ================================================================== *)
(** * The notification transaction *)
(* ================================================================== *)

Module Transaction.

Definition stat_cmd (path : str) : list str :=
  [lit "stat"; lit "-c"; lit "%a"; path].

Definition chmod_cmd (mode path : str) : list str :=
  [lit "chmod"; mode; path].

Definition call (c : Container) (argv : list str) : ExecCall :=
  {| target := name c; cmd := argv; privileged := true |}.

(** The four kinds of record [notify] writes. *)
Definition notifying (self : ContainerNotifier) (path : str) : LogRecord :=
  {| level := INFO; msg := lit "Notifying container %s about change in %s";
     args := [ArgStr (name (container self)); ArgStr path]; exc_info := false |}.

Definition transport_failure (self : ContainerNotifier) (path : str) : LogRecord :=
  {| level := ERROR; msg := lit "Failed to notify container %s about change in %s";
     args := [ArgStr (name (container self)); ArgStr path]; exc_info := true |}.

Definition command_failure (code : Z) : LogRecord :=
  {| level := ERROR; msg := lit "Exec run returned non-zero exit code: %s";
     args := [ArgInt code]; exc_info := false |}.

Definition command_output (text : str) : LogRecord :=
  {| level := INFO; msg := text; args := []; exc_info := false |}.

(** The world after one more log record, and after one more privileged
    command sent to the container. *)
Definition logged (r : LogRecord) (e : Env) : Env :=
  {| now := now e; log := log e ++ [r]; execs := execs e |}.

Definition sent (c : Container) (argv : list str) (e : Env) : Env :=
  {| now := (now e + elapsed (runtime c (execs e) argv true))%Q;
     log := log e;
     execs := execs e ++ [call c argv] |}.

Definition answer (c : Container) (argv : list str) (e : Env) : ExecOutcome :=
  outcome (runtime c (execs e) argv true).

(** A reply that fails the step it answers: a transport error or a
    non-zero exit code. *)
Definition failed (o : ExecOutcome) : bool :=
  match o with
  | TransportError => true
  | Completed r => negb (exit_code r =? 0)%Z
  end.

(** The commands sent between the worlds [e] and [e']. *)
Definition issued (e e' : Env) : list ExecCall :=
  drop (length (execs e)) (execs e').

(** The seven ways through [notify], by what the container answers. *)
Inductive run (self : ContainerNotifier) (path : str) (e : Env)
  : Result unit -> Env -> Prop :=
| stat_transport :
    let e1 := logged (notifying self path) e in
    answer (container self) (stat_cmd path) e1 = TransportError ->
    run self path e (Returns tt)
      (logged (transport_failure self path) (sent (container self) (stat_cmd path) e1))
| stat_nonzero r1 :
    let e1 := logged (notifying self path) e in
    answer (container self) (stat_cmd path) e1 = Completed r1 ->
    exit_code r1 <> 0%Z ->
    run self path e (Returns tt)
      (logged (command_failure (exit_code r1)) (sent (container self) (stat_cmd path) e1))
| stat_undecodable r1 :
    let e1 := logged (notifying self path) e in
    answer (container self) (stat_cmd path) e1 = Completed r1 ->
    exit_code r1 = 0%Z ->
    decode_utf8 (output r1) = None ->
    run self path e (Raises UnicodeDecodeError)
      (sent (container self) (stat_cmd path) e1)
| chmod_transport r1 s1 :
    let e1 := logged (notifying self path) e in
    let e2 := sent (container self) (stat_cmd path) e1 in
    answer (container self) (stat_cmd path) e1 = Completed r1 ->
    exit_code r1 = 0%Z ->
    decode_utf8 (output r1) = Some s1 ->
    answer (container self) (chmod_cmd (strip s1) path) e2 = TransportError ->
    run self path e (Returns tt)
      (logged (transport_failure self path)
         (sent (container self) (chmod_cmd (strip s1) path) e2))
| chmod_nonzero r1 s1 r2 :
    let e1 := logged (notifying self path) e in
    let e2 := sent (container self) (stat_cmd path) e1 in
    answer (container self) (stat_cmd path) e1 = Completed r1 ->
    exit_code r1 = 0%Z ->
    decode_utf8 (output r1) = Some s1 ->
    answer (container self) (chmod_cmd (strip s1) path) e2 = Completed r2 ->
    exit_code r2 <> 0%Z ->
    run self path e (Returns tt)
      (logged (command_failure (exit_code r2))
         (sent (container self) (chmod_cmd (strip s1) path) e2))
| chmod_undecodable r1 s1 r2 :
    let e1 := logged (notifying self path) e in
    let e2 := sent (container self) (stat_cmd path) e1 in
    answer (container self) (stat_cmd path) e1 = Completed r1 ->
    exit_code r1 = 0%Z ->
    decode_utf8 (output r1) = Some s1 ->
    answer (container self) (chmod_cmd (strip s1) path) e2 = Completed r2 ->
    exit_code r2 = 0%Z ->
    decode_utf8 (output r2) = None ->
    run self path e (Raises UnicodeDecodeError)
      (sent (container self) (chmod_cmd (strip s1) path) e2)
| success r1 s1 r2 s2 :
    let e1 := logged (notifying self path) e in
    let e2 := sent (container self) (stat_cmd path) e1 in
    answer (container self) (stat_cmd path) e1 = Completed r1 ->
    exit_code r1 = 0%Z ->
    decode_utf8 (output r1) = Some s1 ->
    answer (container self) (chmod_cmd (strip s1) path) e2 = Completed r2 ->
    exit_code r2 = 0%Z ->
    decode_utf8 (output r2) = Some s2 ->
    run self path e (Returns tt)
      (logged (command_output (strip s2))
         (sent (container self) (chmod_cmd (strip s1) path) e2)).

End Transaction.

(* ================================================================== *)
(** * Runs of a debounced function *)
(* ================================================================== *)

(** The clock reads [t] when the next call arrives. *)
Definition at_time (t : Q) (w : World) : World :=
  {| env := set_now t (env w); cells := cells w |}.

Definition sleep_until (t : Q) : M World unit :=
  fun w => (Returns tt, at_time t w).

(** What the gate did with one call: it ran the function, which returned at
    the given clock reading or raised ([None]), or it dropped the call. *)
Inductive Decision : Type :=
| Executed (completion : option Q)
| Suppressed.

Definition is_executed (d : Decision) : bool :=
  match d with Executed _ => true | Suppressed => false end.

Section Runs.

Context {Args Val : Type}.
Variable PyNone : Val.
Variable bounce_delay : Q.
Variable my_function : Args -> M Env Val.
Variable old_time : nat.

(** The timestamp the gate holds: [old_time['value']]. *)
Definition last_fire (w : World) : option Q :=
  default None (cells w !! old_time).

Record Step : Type := {
  arrival : Q;
  before : World;
  decision : Decision;
  returned : Result Val;
  after : World
}.

(** One call of the debounced function at clock reading [t]. *)
Definition invoke (t : Q) (args : Args) (w : World) : Step :=
  let w0 := at_time t w in
  let out := wrapped PyNone bounce_delay my_function old_time args w0 in
  {| arrival := t;
     before := w0;
     decision :=
       if may_fire bounce_delay (last_fire w0) t
       then Executed match fst out with
                     | Returns _ => Some (now (env (snd out)))
                     | Raises _ => None
                     end
       else Suppressed;
     returned := fst out;
     after := snd out |}.

Fixpoint run_gate (calls : list (Q * Args)) (w : World) : list Step :=
  match calls with
  | [] => []
  | (t, a) :: rest =>
      let s := invoke t a w in
      s :: run_gate rest (after s)
  end.



End Runs.


(* ================================================================== *)
(** * Path translation, as the specification words it *)
(* ================================================================== *)

Section Translate.

Variable relpath : str -> str -> Result str.

(** The path of [host_path] relative to [host_dir], its backslashes
    turned into forward slashes, joined onto [container_dir] by the
    POSIX join. *)
Definition translate (host_dir container_dir host_path : str) : Result str :=
  match relpath host_path host_dir with
  | Returns r => Returns (posixpath.join container_dir (replace 92 47 r))
  | Raises e => Raises e
  end.

End Translate.

(** An absolute path in normal form, from its components. *)
Definition rooted (comps : list str) : str := posixpath.sep ++ Py.join posixpath.sep comps.

(** A proper component: not empty, without a slash, neither [.] nor [..]. *)
Definition proper (comp : str) : Prop :=
  comp <> [] /\ ~ In 47%N comp /\ comp <> posixpath.curdir /\ comp <> posixpath.pardir.

(* ================================================================== *)
(** * Vocabulary for the event filter *)
(* ================================================================== *)

(** The same event, told of a directory ([d = true]) or of a file. *)
Definition with_directory (d : bool) (ev : FileSystemEvent) : FileSystemEvent :=
  match ev with
  | Created _ s => Created d s
  | Modified _ s => Modified d s
  | Deleted _ s => Deleted d s
  | Moved _ s t => Moved d s t
  end.

(** The kinds of event the notifier has a handler for. *)
Definition qualifying (ev : FileSystemEvent) : bool :=
  match ev with
  | Deleted _ _ => false
  | _ => true
  end.

(** Some pattern of the exclude list matches the path. *)
Definition excluded (path_match : str -> str -> bool)
    (exclude_patterns : option (list str)) (path : str) : bool :=
  existsb (fun p => path_match p path) (default [] exclude_patterns).

(* ================================================================== *)
(** * Vocabulary for further properties *)
(* ================================================================== *)

(** A string that neither starts nor ends with whitespace. *)
Definition trimmed (s : str) : Prop :=
  (forall c, head s = Some c -> isspace c = false)
  /\ (forall c, last s = Some c -> isspace c = false).

(** Bytes that are all ASCII, and a container whose commands only ever
    print ASCII. *)
Definition ascii_only (b : bytes) : Prop :=
  Forall (fun x => (Byte.to_N x < 128)%N) b.

Definition prints_ascii (c : Container) : Prop :=
  forall history argv p r,
    outcome (runtime c history argv p) = Completed r -> ascii_only (output r).

(** The answer the container gave to the [i]-th command sent between the
    worlds [e] and [e'], when that command is [c]. *)
Definition answer_at (box : Container) (e e' : Env) (i : nat) (c : ExecCall)
  : ExecOutcome :=
  outcome (runtime box (execs e ++ take i (Transaction.issued e e'))
             (cmd c) (privileged c)).

(** The time the container takes for a privileged command in world [e]. *)
Definition took (box : Container) (argv : list str) (e : Env) : Q :=
  elapsed (runtime box (execs e) argv true).

(** A path component without a slash, possibly [.] or [..]. *)
Definition plain (comp : str) : Prop := comp <> [] /\ ~ In 47%N comp.

(* ================================================================== *)
(** * Sample values on which the model is run *)
(* ================================================================== *)

Module Sample.

(** A glob test with [*] and [?]; [*] also crosses slashes. *)
Fixpoint glob (pattern path : str) : bool :=
  match pattern with
  | [] => is_empty path
  | c :: ps =>
      if N.eqb c 42 then
        (fix rest (s : str) : bool :=
           glob ps s || match s with [] => false | _ :: r => rest r end) path
      else
        match path with
        | [] => false
        | x :: r => (N.eqb c 63 || N.eqb c x) && glob ps r
        end
  end.

Definition boot : World :=
  {| env := {| now := 0; log := []; execs := [] |}; cells := ∅ |}.

Definition reply_with (secs : Q) (code : Z) (out : bytes) : ExecReply :=
  {| elapsed := secs; outcome := Completed {| exit_code := code; output := out |} |}.

(** A container that answers [stat] with one reply and every other
    command with another. *)
Definition scripted (n : string) (on_stat on_other : ExecReply) : Container :=
  {| name := lit n;
     runtime := fun _ argv _ =>
       match argv with
       | c :: _ => if str_eqb c (lit "stat") then on_stat else on_other
       | [] => on_other
       end |}.

Definition newline : Byte.byte := Byte.x0a.

Definition healthy (n : string) : Container :=
  scripted n (reply_with 0.25 0 (blit "644" ++ [newline])) (reply_with 0.25 0 []).

Definition missing_file : Container :=
  scripted "web" (reply_with 0.25 1 (blit "stat: cannot stat")) (reply_with 0.25 0 []).

Definition read_only : Container :=
  scripted "web" (reply_with 0.25 0 (blit "644" ++ [newline]))
    (reply_with 0.25 1 (blit "chmod: read-only file system")).

Definition unreachable : Container :=
  scripted "web" {| elapsed := 0.25; outcome := TransportError |}
    {| elapsed := 0.25; outcome := TransportError |}.

Definition garbled_stat : Container :=
  scripted "web" (reply_with 0.25 0 [Byte.xff]) (reply_with 0.25 0 []).

Definition garbled_chmod : Container :=
  scripted "web" (reply_with 0.25 0 (blit "644" ++ [newline])) (reply_with 0.25 0 [Byte.xff]).

Definition os_path_relpath : str -> str -> Result str :=
  posixpath.relpath (lit "/").

Definition notifier (c : Container) : ContainerNotifier :=
  {| container := c; host_dir := lit "/home/u/proj"; container_dir := lit "/app" |}.

Definition web : ContainerNotifier := notifier (healthy "web").

Definition source_file : str := lit "/app/src/main.py".

Definition changed : FileSystemEvent :=
  Modified false (lit "/home/u/proj/src/main.py").

(** The arguments of one call of the change handler. *)
Definition saved : ContainerNotifier * FileSystemEvent := (web, changed).

(** Two notifiers on the same host directory, for two containers; a
    file changes at t = 0 and each observer delivers the event, the
    second one second later. *)
Definition class_and_two_notifiers
  : M World (Observer * Observer) :=
  cls <- class_body os_path_relpath ;;
  let a := __init__ cls (healthy "web") (lit "/home/u/proj") (lit "/app") None in
  let b := __init__ cls (healthy "worker") (lit "/home/u/proj") (lit "/srv") None in
  ret (snd a, snd b).

Definition both_observers_deliver : M World unit :=
  o <- class_and_two_notifiers ;;
  (sleep_until 0 ;;;
   emit glob (fst o) changed ;;;
   sleep_until 1 ;;;
   emit glob (snd o) changed).

Definition second_observer_delivers : M World unit :=
  o <- class_and_two_notifiers ;;
  (sleep_until 1 ;;;
   emit glob (snd o) changed).

(** One notifier, with or without exclude patterns, and one event. *)
Definition one_event (exclude_patterns : option (list str)) (ev : FileSystemEvent)
  : M World unit :=
  cls <- class_body os_path_relpath ;;
  let n := __init__ cls (healthy "web") (lit "/home/u/proj") (lit "/app") exclude_patterns in
  emit glob (snd n) ev.

(** Further containers: [stat] prints only a newline; [stat] fails for a
    notifier of its own; the output of [stat] cannot be decoded. *)
Definition blank_stat : Container :=
  scripted "web" (reply_with 0.25 0 [newline]) (reply_with 0.25 0 []).

Definition broken : ContainerNotifier := notifier missing_file.

Definition garbled : ContainerNotifier := notifier garbled_stat.

(** The world after the class body has run and one event was handled at
    t = 0: the gate at location 0 holds the completion time. *)
Definition after_first_event : World :=
  snd (wrapped tt 2 (__change_handler os_path_relpath) 0 saved boot).

End Sample.

(* ================================================================== *)
(** * Properties of the notification transaction *)
(* ================================================================== *)

Section TransactionFacts.

Import Transaction.

Variable self : ContainerNotifier.
Variable path : str.

Lemma answer_logged r argv e :
  answer (container self) argv (logged r e) = answer (container self) argv e.
Proof. reflexivity. Qed.

Lemma answer_sent_logged r argv first e :
  answer (container self) argv (sent (container self) first (logged r e))
  = answer (container self) argv (sent (container self) first e).
Proof. reflexivity. Qed.

(** [notify] takes one of the seven ways of [run]. *)
Lemma notify_run e :
  run self path e (fst (notify self path e)) (snd (notify self path e)).
Proof.
  pose (e1 := logged (notifying self path) e).
  pose (e2 := sent (container self) (stat_cmd path) e1).
  unfold notify, bind, try_except, exec_run, logging_info, logging_error,
    decode, raise, ret.
  cbn [fst snd execs now log].
  destruct (answer (container self) (stat_cmd path) e1) as [r1|] eqn:H1;
    unfold answer, e1, logged, stat_cmd in H1; cbn [execs] in H1; rewrite H1.
  2: { apply stat_transport. exact H1. }
  destruct (Z.eqb_spec (exit_code r1) 0) as [Hz1|Hz1]; cbn [negb].
  2: { apply (stat_nonzero self path e r1); assumption. }
  destruct (decode_utf8 (output r1)) as [s1|] eqn:D1.
  2: { apply (stat_undecodable self path e r1); assumption. }
  cbn [fst snd execs now log].
  destruct (answer (container self) (chmod_cmd (strip s1) path) e2) as [r2|] eqn:H2;
    unfold answer, e2, e1, sent, logged, chmod_cmd, call, stat_cmd in H2;
    cbn [execs] in H2; rewrite H2.
  2: { apply (chmod_transport self path e r1 s1); assumption. }
  destruct (Z.eqb_spec (exit_code r2) 0) as [Hz2|Hz2]; cbn [negb].
  2: { apply (chmod_nonzero self path e r1 s1 r2); assumption. }
  unfold ExecResult_bool.
  destruct (decode_utf8 (output r2)) as [s2|] eqn:D2.
  - apply (success self path e r1 s1 r2 s2); assumption.
  - apply (chmod_undecodable self path e r1 s1 r2); assumption.
Qed.

Lemma issued_one e c r :
  issued e (logged r (sent (container self) c (logged (notifying self path) e)))
  = [call (container self) c].
Proof. unfold issued; cbn. by rewrite drop_app_length. Qed.

Lemma issued_one_raised e c :
  issued e (sent (container self) c (logged (notifying self path) e))
  = [call (container self) c].
Proof. unfold issued; cbn. by rewrite drop_app_length. Qed.

Lemma issued_two e c1 c2 r :
  issued e (logged r (sent (container self) c2
                        (sent (container self) c1 (logged (notifying self path) e))))
  = [call (container self) c1; call (container self) c2].
Proof. unfold issued; cbn. by rewrite <- app_assoc, drop_app_length. Qed.

Lemma issued_two_raised e c1 c2 :
  issued e (sent (container self) c2
              (sent (container self) c1 (logged (notifying self path) e)))
  = [call (container self) c1; call (container self) c2].
Proof. unfold issued; cbn. by rewrite <- app_assoc, drop_app_length. Qed.

End TransactionFacts.

Section TransactionClaims.

Import Transaction.

(** After an inversion of [run]: name nothing, unfold the local worlds. *)
Ltac subst_lets :=
  subst;
  repeat match goal with x := _ |- _ => subst x end;
  rewrite ?answer_logged in *.

(** [Hf] says that a reply failed; the hypotheses say it did not. *)
Ltac refute_failure Hf :=
  unfold answer in *; cbn in *; rewrite ?app_nil_r in *;
  match goal with H : outcome _ = _ |- _ => rewrite H in Hf end;
  cbn in Hf;
  match goal with H : exit_code _ = 0%Z |- _ => rewrite H in Hf end;
  discriminate.

(** The last record of the log is the one of the reply that failed. *)
Ltac recorded_failure :=
  unfold logged at 1; cbn [log]; rewrite last_snoc;
  unfold answer in *; cbn in *; rewrite ?app_nil_r in *;
  match goal with H : outcome _ = _ |- _ => rewrite H end;
  reflexivity.

(** C3.  When the [stat] step returns a non-zero exit code, [notify]
    returns normally, the only command the container received is that
    [stat] (no [chmod] is sent), and the log ends with the record of a
    command failure that carries the exit code. *)
Theorem stat_failure_aborts (self : ContainerNotifier) (path : str) (e : Env)
    (r1 : ExecResult) :
  answer (container self) (stat_cmd path) e = Completed r1 ->
  exit_code r1 <> 0%Z ->
  fst (notify self path e) = Returns tt
  /\ execs (snd (notify self path e))
     = execs e ++ [call (container self) (stat_cmd path)]
  /\ log (snd (notify self path e))
     = log e ++ [notifying self path; command_failure (exit_code r1)].
Proof.
  intros Hans Hcode.
  pose proof (notify_run self path e) as R.
  destruct (notify self path e) as [res e']; cbn [fst snd] in *.
  inversion R; subst_lets; try congruence.
  match goal with
  | H : answer _ (stat_cmd path) e = Completed ?r |- _ =>
      assert (r = r1) by congruence; subst r
  end.
  cbn. rewrite <- app_assoc. auto.
Qed.

(** C4, as amended.  No command failure and no transport failure leaves
    [notify]: it never raises [NonZeroExitError] or [APIError], and
    whenever one of the commands it sent was answered by a transport
    error or a non-zero exit code, [notify] returns normally, that
    command is the last one it sent (nothing is retried, nothing
    follows) and the log ends with the error record of that failure: the
    transport failure with its traceback, or the command failure with
    the exit code. *)
Theorem notify_recovers_failures (self : ContainerNotifier) (path : str) (e : Env) :
  let out := notify self path e in
  (forall k, fst out <> Raises (NonZeroExitError k))
  /\ fst out <> Raises APIError
  /\ forall i c,
      issued e (snd out) !! i = Some c ->
      failed (outcome (runtime (container self)
                         (execs e ++ take i (issued e (snd out)))
                         (cmd c) (privileged c))) = true ->
      fst out = Returns tt
      /\ S i = length (issued e (snd out))
      /\ last (log (snd out))
         = Some match outcome (runtime (container self)
                                 (execs e ++ take i (issued e (snd out)))
                                 (cmd c) (privileged c)) with
                | TransportError => transport_failure self path
                | Completed r => command_failure (exit_code r)
                end.
Proof.
  intros out; subst out.
  pose proof (notify_run self path e) as R.
  destruct (notify self path e) as [res e']; cbn [fst snd] in *.
  inversion R; subst_lets;
    (split; [discriminate|]); (split; [discriminate|]);
    rewrite ?issued_one, ?issued_one_raised, ?issued_two, ?issued_two_raised;
    intros i c Hi Hf;
    destruct i as [|[|[|]]]; inversion Hi; subst c;
    try (split; [reflexivity|]; split; [reflexivity|]; recorded_failure);
    exfalso; refute_failure Hf.
Qed.

(** C9, as amended.  When [stat] returns exit code 0 and its output is
    valid UTF-8, [chmod] is the next command sent and its mode argument
    is that output decoded and stripped; when [chmod] then returns exit
    code 0 and its output is valid UTF-8, [notify] returns normally and
    the log gains exactly the announcement and the decoded, stripped
    output of [chmod]: no failure record. *)
Theorem success_path (self : ContainerNotifier) (path : str) (e : Env)
    (r1 : ExecResult) (s1 : str) :
  answer (container self) (stat_cmd path) e = Completed r1 ->
  exit_code r1 = 0%Z ->
  decode_utf8 (output r1) = Some s1 ->
  execs (snd (notify self path e))
  = execs e ++ [call (container self) (stat_cmd path);
                call (container self) (chmod_cmd (strip s1) path)]
  /\ forall r2 s2,
      answer (container self) (chmod_cmd (strip s1) path)
        (sent (container self) (stat_cmd path) e) = Completed r2 ->
      exit_code r2 = 0%Z ->
      decode_utf8 (output r2) = Some s2 ->
      fst (notify self path e) = Returns tt
      /\ log (snd (notify self path e))
         = log e ++ [notifying self path; command_output (strip s2)].
Proof.
  intros Hans Hcode Hdec.
  pose proof (notify_run self path e) as R.
  destruct (notify self path e) as [res e']; cbn [fst snd] in *.
  inversion R; subst_lets; try congruence;
    match goal with
    | H : answer _ (stat_cmd path) e = Completed ?r |- _ =>
        assert (r = r1) by congruence; subst r
    end; try congruence;
    match goal with
    | H : decode_utf8 (output r1) = Some ?s |- _ =>
        assert (s = s1) by congruence; subst s
    end.
  all: split; [cbn; rewrite <- app_assoc; reflexivity|].
  all: intros r2' s2' A2 C2 D2'; rewrite answer_sent_logged in *; try congruence.
  match goal with
  | H : answer _ (chmod_cmd _ _) _ = Completed ?r |- _ =>
      assert (r = r2') by congruence; subst r
  end.
  assert (s2 = s2') by congruence; subst s2.
  split; [reflexivity|]. cbn. rewrite <- app_assoc. reflexivity.
Qed.

End TransactionClaims.

(* ================================================================== *)
(** * Properties of the debounce gate *)
(* ================================================================== *)

Section GateFacts.

Context {Args Val : Type}.
Variable PyNone : Val.
Variable bounce_delay : Q.
Variable my_function : Args -> M Env Val.
Variable old_time : nat.

Local Abbreviation gate := (wrapped PyNone bounce_delay my_function old_time).
Local Abbreviation fire := (last_fire old_time).

Lemma may_fire_true_iff old t :
  may_fire bounce_delay old t = true
  <-> old = None \/ exists c, old = Some c /\ (bounce_delay <= t - c)%Q.
Proof.
  destruct old as [c|]; cbn.
  - rewrite Qle_bool_iff. split.
    + intros H. right. exists c. auto.
    + intros [H|(c' & H & Hle)]; [discriminate|]. congruence.
  - split; auto.
Qed.

Lemma may_fire_false_iff old t :
  may_fire bounce_delay old t = false
  <-> exists c, old = Some c /\ (t - c < bounce_delay)%Q.
Proof.
  destruct old as [c|]; cbn.
  - split.
    + intros H. exists c. split; [reflexivity|].
      apply Qnot_le_lt. intros Hle. apply Qle_bool_iff in Hle. congruence.
    + intros (c' & H & Hlt). injection H as <-.
      destruct (Qle_bool bounce_delay (t - c)) eqn:E; [|reflexivity].
      apply Qle_bool_iff in E. exfalso. eapply Qlt_not_le; eauto.
  - split; [discriminate|]. intros (c & H & _). discriminate.
Qed.

(** A dropped call returns [None] and changes nothing. *)
Lemma wrapped_suppressed args w :
  may_fire bounce_delay (fire w) (now (env w)) = false ->
  gate args w = (Returns PyNone, w).
Proof.
  intros H. destruct w as [e c]. unfold wrapped, bind, lift, time_time, getitem, ret.
  cbn in *. unfold last_fire in H. cbn in H. rewrite H. reflexivity.
Qed.

(** A call that passes the test runs the function; when the function returns, the
    clock reading at that moment is stored and the result passed on. *)
Lemma wrapped_returns args w result e1 :
  may_fire bounce_delay (fire w) (now (env w)) = true ->
  my_function args (env w) = (Returns result, e1) ->
  gate args w
  = (Returns result, {| env := e1; cells := <[old_time := Some (now e1)]> (cells w) |}).
Proof.
  intros H Hf. destruct w as [e c].
  unfold wrapped, bind, lift, time_time, getitem, setitem, ret.
  cbn in *. unfold last_fire in H. cbn in H. rewrite H. cbn. rewrite Hf. reflexivity.
Qed.

(** When the function raises, the exception passes through the gate and
    the timestamp stays as it was. *)
Lemma wrapped_raises args w x e1 :
  may_fire bounce_delay (fire w) (now (env w)) = true ->
  my_function args (env w) = (Raises x, e1) ->
  gate args w = (Raises x, {| env := e1; cells := cells w |}).
Proof.
  intros H Hf. destruct w as [e c].
  unfold wrapped, bind, lift, time_time, getitem, setitem, ret.
  cbn in *. unfold last_fire in H. cbn in H. rewrite H. cbn. rewrite Hf. reflexivity.
Qed.

Lemma last_fire_stored e c t :
  fire {| env := e; cells := <[old_time := Some t]> c |} = Some t.
Proof. unfold last_fire. cbn. by rewrite lookup_insert_eq. Qed.

Lemma last_fire_at_time t w : fire (at_time t w) = fire w.
Proof. reflexivity. Qed.

(** What one call of a run does, by the decision taken. *)
Lemma invoke_suppressed t a w :
  may_fire bounce_delay (fire w) t = false ->
  invoke PyNone bounce_delay my_function old_time t a w
  = {| arrival := t; before := at_time t w; decision := Suppressed;
       returned := Returns PyNone; after := at_time t w |}.
Proof.
  intros H. unfold invoke. rewrite last_fire_at_time, H.
  rewrite wrapped_suppressed; [reflexivity|]. exact H.
Qed.

Lemma invoke_executed t a w :
  may_fire bounce_delay (fire w) t = true ->
  let out := my_function a (set_now t (env w)) in
  invoke PyNone bounce_delay my_function old_time t a w
  = {| arrival := t; before := at_time t w;
       decision := Executed match fst out with
                            | Returns _ => Some (now (snd out))
                            | Raises _ => None
                            end;
       returned := fst out;
       after := {| env := snd out;
                   cells := match fst out with
                            | Returns _ => <[old_time := Some (now (snd out))]> (cells w)
                            | Raises _ => cells w
                            end |} |}.
Proof.
  intros H out. unfold invoke. rewrite last_fire_at_time, H.
  destruct (my_function a (set_now t (env w))) as [[r|x] e1] eqn:Hf; subst out.
  - rewrite (wrapped_returns a (at_time t w) r e1); [reflexivity|exact H|exact Hf].
  - rewrite (wrapped_raises a (at_time t w) x e1); [reflexivity|exact H|exact Hf].
Qed.



End GateFacts.

Section GateClaims.

Context {Args Val : Type}.
Variable PyNone : Val.
Variable my_function : Args -> M Env Val.
Variable old_time : nat.




End GateClaims.

(* ================================================================== *)
(** * Properties of the notifier: one gate, the event filter, the path *)
(* ================================================================== *)

Section NotifierClaims.

Variable relpath : str -> str -> Result str.
Variable path_match : str -> str -> bool.

Lemma class_body_decorates w0 :
  class_body relpath w0
  = (Returns (decorated_class relpath (fresh (dom (cells w0)))),
     {| env := env w0;
        cells := <[fresh (dom (cells w0)) := None]> (cells w0) |}).
Proof. reflexivity. Qed.

(** The undecorated handler reads an event only through [host_path]. *)
Lemma change_handler_translate self ev e :
  __change_handler relpath (self, ev) e
  = (absolute_path <- of_result (translate relpath (host_dir self)
                                   (container_dir self) (host_path ev)) ;;
     notify self absolute_path) e.
Proof.
  unfold __change_handler, translate, bind, of_result.
  destruct (relpath (host_path ev) (host_dir self)); reflexivity.
Qed.

Lemma change_handler_same_path self ev ev' :
  host_path ev = host_path ev' ->
  __change_handler relpath (self, ev) = __change_handler relpath (self, ev').
Proof. intros H. unfold __change_handler. rewrite H. reflexivity. Qed.

Lemma wrapped_same_function {Args Val} (none : Val) d (f : Args -> M Env Val) l a a' :
  f a = f a' -> wrapped none d f l a = wrapped none d f l a'.
Proof. intros H. unfold wrapped. rewrite H. reflexivity. Qed.

(** C7, as amended.  The class body creates one timestamp, and the
    decorated method of every notifier reads and writes that one: once
    a call through any notifier has been executed and has returned at
    clock reading [now e1], a call through any notifier, the same or
    another, that arrives less than 2 later is dropped. *)
Theorem one_gate_for_all_notifiers (w0 : World) :
  let old_time := fresh (dom (cells w0)) in
  let cls := decorated_class relpath old_time in
  class_body relpath w0
  = (Returns cls, {| env := env w0; cells := <[old_time := None]> (cells w0) |})
  /\ forall a ev_a b ev_b w e1 t,
      may_fire 2 (last_fire old_time w) (now (env w)) = true ->
      __change_handler relpath (a, ev_a) (env w) = (Returns tt, e1) ->
      (t - now e1 < 2)%Q ->
      handler cls (b, ev_b) (at_time t (snd (handler cls (a, ev_a) w)))
      = (Returns tt, at_time t (snd (handler cls (a, ev_a) w))).
Proof.
  intros old_time cls. split; [apply class_body_decorates|].
  intros a ev_a b ev_b w e1 t Hgo Hrun Ht.
  unfold cls, decorated_class, handler.
  rewrite (wrapped_returns tt 2 _ old_time (a, ev_a) w tt e1 Hgo Hrun).
  cbn [snd]. apply wrapped_suppressed.
  apply may_fire_false_iff. exists (now e1). split; [|exact Ht].
  unfold at_time. cbn [cells]. apply last_fire_stored.
Qed.

(** C6.  For a move event the handler computes the container path from
    the destination path: what it does is the notification of the
    translated destination, whatever the source path is; so it is for
    the decorated method.  A move of [/home/u/proj/a.txt] to
    [/home/u/proj/b.txt] sends [stat] and [chmod] for [/app/b.txt]. *)
Theorem move_uses_destination :
  (forall self d src dest e,
      host_path (Moved d src dest) = dest
      /\ __change_handler relpath (self, Moved d src dest) e
         = (absolute_path <- of_result (translate relpath (host_dir self)
                                          (container_dir self) dest) ;;
            notify self absolute_path) e)
  /\ (forall old_time self d src src' dest w,
        handler (decorated_class relpath old_time) (self, Moved d src dest) w
        = handler (decorated_class relpath old_time) (self, Moved d src' dest) w)
  /\ map cmd (execs (env (snd
       (Sample.one_event None
          (Moved false (lit "/home/u/proj/a.txt") (lit "/home/u/proj/b.txt"))
          Sample.boot))))
     = [Transaction.stat_cmd (lit "/app/b.txt");
        Transaction.chmod_cmd (lit "644") (lit "/app/b.txt")].
Proof.
  split; [|split].
  - intros self d src dest e. split; [reflexivity|].
    apply change_handler_translate.
  - intros old_time self d src src' dest w. unfold decorated_class, handler.
    rewrite (wrapped_same_function tt 2 _ old_time
               (self, Moved d src dest) (self, Moved d src' dest));
      [reflexivity|].
    apply change_handler_same_path. reflexivity.
  - vm_compute. reflexivity.
Qed.

Lemma emit_started cls c hd cd ex ev :
  emit path_match (snd (__init__ cls c hd cd ex)) ev
  = dispatch path_match (event_handler (snd (__init__ cls c hd cd ex))) ev.
Proof. reflexivity. Qed.

Lemma init_exclude_list cls c hd cd ex :
  ignore_patterns (event_handler (snd (__init__ cls c hd cd ex)))
  = Some (default [] ex).
Proof. destruct ex as [[|p ps]|]; reflexivity. Qed.

Lemma match_any_paths_all_excluded ex paths :
  Forall (fun p => existsb (fun pat => path_match pat p) ex = true) paths ->
  match_any_paths path_match paths ex = Returns false
  \/ match_any_paths path_match paths ex = Raises ValueError.
Proof.
  induction 1 as [|p ps Hp _ IH]; [left; reflexivity|].
  cbn [match_any_paths]. unfold match_path.
  destruct (existsb (str_eqb star) ex); [right; reflexivity|].
  rewrite Hp, andb_false_r. exact IH.
Qed.

Lemma match_any_paths_one_passes ex paths p :
  In p paths ->
  path_match star p = true ->
  existsb (fun pat => path_match pat p) ex = false ->
  match_any_paths path_match paths ex = Returns true.
Proof.
  intros Hin Hstar Hex.
  assert (Hno : existsb (str_eqb star) ex = false).
  { destruct (existsb (str_eqb star) ex) eqn:E; [|reflexivity].
    apply existsb_exists in E as (q & Hq & Heq).
    unfold str_eqb in Heq. apply bool_decide_eq_true in Heq. subst q.
    assert (existsb (fun pat => path_match pat p) ex = true)
      by (apply existsb_exists; eauto).
    congruence. }
  induction paths as [|q qs IH]; [destruct Hin|].
  cbn [match_any_paths]. unfold match_path. rewrite Hno.
  destruct (path_match star q && negb (existsb (fun pat => path_match pat q) ex)) eqn:E;
    [reflexivity|].
  destruct Hin as [->|Hin]; [|auto].
  rewrite Hstar, Hex in E. discriminate.
Qed.

(** A created, modified or moved event one of whose paths passes the
    filter is handed to the decorated method. *)
Lemma emit_forwards (cls : Class) c hd cd ex ev w p :
  qualifying ev = true ->
  In p (event_paths ev) ->
  path_match star p = true ->
  excluded path_match ex p = false ->
  emit path_match (snd (__init__ cls c hd cd ex)) ev w
  = handler cls (fst (__init__ cls c hd cd ex), ev) w.
Proof.
  intros Hq Hin Hstar Hex. rewrite emit_started. unfold dispatch.
  rewrite init_exclude_list.
  change (default [] (Some (default [] ex))) with (default [] ex).
  cbn [ignore_directories event_handler snd __init__ andb].
  unfold bind, of_result.
  rewrite (match_any_paths_one_passes (default [] ex) (event_paths ev) p Hin Hstar Hex).
  destruct ev; try reflexivity. discriminate.
Qed.

(** C8, as amended.  The handler is built with [ignore_directories =
    False]: an event on a directory is handled exactly as the same
    event on a file, and a created, modified or moved directory with a
    path that passes the exclude filter reaches the gated change
    handler. *)
Theorem directory_events_are_forwarded old_time c hd cd ex :
  let cls := decorated_class relpath old_time in
  let self := fst (__init__ cls c hd cd ex) in
  let o := snd (__init__ cls c hd cd ex) in
  ignore_directories (event_handler o) = false
  /\ (forall ev d w,
        emit path_match o (with_directory d ev) w = emit path_match o ev w)
  /\ (forall ev w p,
        is_directory ev = true ->
        qualifying ev = true ->
        In p (event_paths ev) ->
        path_match star p = true ->
        excluded path_match ex p = false ->
        emit path_match o ev w = handler cls (self, ev) w).
Proof.
  intros cls self o. split; [reflexivity|]. split.
  - intros ev d w. subst o. rewrite !emit_started. unfold dispatch.
    cbn [ignore_directories event_handler snd __init__ andb].
    assert (Hp : event_paths (with_directory d ev) = event_paths ev)
      by (destruct ev; reflexivity).
    rewrite Hp. unfold bind, of_result.
    destruct (match_any_paths path_match (event_paths ev) _) as [[|]|x];
      try reflexivity.
    destruct ev; reflexivity.
  - intros ev w p _ Hq Hin Hstar Hex. apply (emit_forwards cls c hd cd ex ev w p); assumption.
Qed.

(** C10, as amended.  (1) An event all of whose paths (the source path
    and, for a move, the destination path) match an exclude pattern
    never reaches the change handler: the world is left as it was.
    (2) A created, modified or moved event with a path that the
    include-all pattern matches and no exclude pattern matches is
    forwarded to the gated handler; for a move one such path among the
    two is enough.  (3) [exclude_patterns=None] builds the same notifier
    as an empty list. *)
Theorem exclusion_filter (cls : Class) c hd cd ex :
  let self := fst (__init__ cls c hd cd ex) in
  let o := snd (__init__ cls c hd cd ex) in
  (forall ev w,
      Forall (fun p => excluded path_match ex p = true) (event_paths ev) ->
      snd (emit path_match o ev w) = w)
  /\ (forall ev w p,
        qualifying ev = true ->
        In p (event_paths ev) ->
        path_match star p = true ->
        excluded path_match ex p = false ->
        emit path_match o ev w = handler cls (self, ev) w)
  /\ __init__ cls c hd cd None = __init__ cls c hd cd (Some []).
Proof.
  intros self o. split; [|split].
  - intros ev w Hall. subst o. rewrite emit_started. unfold dispatch.
    rewrite init_exclude_list.
    change (default [] (Some (default [] ex))) with (default [] ex).
    cbn [ignore_directories event_handler snd __init__ andb].
    unfold bind, of_result.
    destruct (match_any_paths_all_excluded (default [] ex) (event_paths ev)) as [E|E];
      [exact Hall| |]; rewrite E; reflexivity.
  - intros ev w p Hq Hin Hstar Hex.
    apply (emit_forwards cls c hd cd ex ev w p); assumption.
  - reflexivity.
Qed.

(** After [stop] no event reaches the handler. *)
Lemma emit_after_stop o ev w : emit path_match (stop o) ev w = (Returns tt, w).
Proof. reflexivity. Qed.

End NotifierClaims.

(* ================================================================== *)
(** * Properties of the path functions *)
(* ================================================================== *)

Section PathFacts.

Import posixpath.

Lemma sep_is_slash : sep = [47%N].
Proof. reflexivity. Qed.

Lemma split_without_sep (s : str) :
  ~ In 47%N s -> split 47 s = [s].
Proof.
  induction s as [|c s IH]; intros Hno; [reflexivity|].
  cbn [split]. destruct (N.eqb_spec c 47) as [->|Hne].
  - exfalso. apply Hno. left. reflexivity.
  - rewrite IH; [reflexivity|]. intros Hin. apply Hno. right. exact Hin.
Qed.

Lemma split_at_sep (s r : str) :
  ~ In 47%N s -> split 47 (s ++ 47%N :: r) = s :: split 47 r.
Proof.
  induction s as [|c s IH]; intros Hno; [reflexivity|].
  cbn [split app]. destruct (N.eqb_spec c 47) as [->|Hne].
  - exfalso. apply Hno. left. reflexivity.
  - rewrite IH; [reflexivity|]. intros Hin. apply Hno. right. exact Hin.
Qed.

Lemma split_join (cs : list str) :
  Forall proper cs -> cs <> [] -> split 47 (Py.join sep cs) = cs.
Proof.
  induction 1 as [|c cs Hc Hcs IH]; intros Hne; [congruence|].
  destruct Hc as (_ & Hno & _).
  destruct cs as [|c' cs'].
  - cbn [Py.join]. apply split_without_sep. exact Hno.
  - change (Py.join sep (c :: c' :: cs'))
      with (c ++ 47%N :: Py.join sep (c' :: cs')).
    rewrite split_at_sep by exact Hno. rewrite IH by discriminate. reflexivity.
Qed.

Lemma split_rooted (cs : list str) :
  Forall proper cs ->
  split 47 (rooted cs) = [] :: (if is_empty cs then [[]] else cs).
Proof.
  intros Hcs. unfold rooted. rewrite sep_is_slash.
  change ([47%N] ++ Py.join [47%N] cs) with ([] ++ 47%N :: Py.join [47%N] cs).
  rewrite split_at_sep by (intros []). f_equal.
  destruct cs as [|c cs']; [reflexivity|].
  apply (split_join (c :: cs')); [exact Hcs|discriminate].
Qed.

Lemma str_eqb_false (a b : str) : a <> b -> str_eqb a b = false.
Proof. intros H. unfold str_eqb. by apply bool_decide_eq_false. Qed.

Lemma str_eqb_refl (a : str) : str_eqb a a = true.
Proof. unfold str_eqb. by apply bool_decide_eq_true. Qed.

Lemma norm_step_proper n acc c : proper c -> norm_step n acc c = acc ++ [c].
Proof.
  intros (He & _ & Hdot & Hdd). unfold norm_step.
  rewrite (str_eqb_false c []), (str_eqb_false c curdir), (str_eqb_false c pardir)
    by assumption.
  reflexivity.
Qed.

Lemma norm_step_empty n acc : norm_step n acc [] = acc.
Proof. unfold norm_step. by rewrite str_eqb_refl. Qed.

Lemma foldl_norm_step n cs : forall acc,
  Forall proper cs -> foldl (norm_step n) acc cs = acc ++ cs.
Proof.
  induction cs as [|c cs IH]; intros acc Hcs; cbn [foldl].
  - by rewrite app_nil_r.
  - inversion Hcs; subst. rewrite norm_step_proper by assumption.
    rewrite IH by assumption. by rewrite <- app_assoc.
Qed.

Lemma proper_head (c : str) : proper c -> exists x r, c = x :: r /\ x <> 47%N.
Proof.
  intros (He & Hno & _). destruct c as [|x r]; [congruence|].
  exists x, r. split; [reflexivity|]. intros ->. apply Hno. left. reflexivity.
Qed.

Lemma initial_slashes_rooted cs : Forall proper cs -> initial_slashes (rooted cs) = 1%nat.
Proof.
  intros Hcs. destruct cs as [|c cs]; [reflexivity|].
  inversion Hcs as [|? ? Hc _]; subst.
  destruct (proper_head c Hc) as (x & r & -> & Hx).
  unfold initial_slashes, rooted. rewrite sep_is_slash.
  destruct cs; cbn; destruct (N.eqb_spec x 47); try congruence; reflexivity.
Qed.

(** A rooted path of proper components is its own normal form. *)
Lemma normpath_rooted cs : Forall proper cs -> normpath (rooted cs) = rooted cs.
Proof.
  intros Hcs. unfold normpath.
  change (is_empty (rooted cs)) with false. cbv iota.
  rewrite initial_slashes_rooted, split_rooted by assumption.
  destruct cs as [|c cs']; [reflexivity|].
  cbn [is_empty].
  change (foldl (norm_step 1) [] ([] :: c :: cs'))
    with (foldl (norm_step 1) (norm_step 1 [] []) (c :: cs')).
  rewrite norm_step_empty.
  rewrite foldl_norm_step by assumption. cbn [app replicate concat].
  rewrite app_nil_r. reflexivity.
Qed.

Lemma abspath_rooted cwd cs : Forall proper cs -> abspath cwd (rooted cs) = rooted cs.
Proof.
  intros Hcs. unfold abspath.
  change (isabs (rooted cs)) with true. cbv iota. apply normpath_rooted, Hcs.
Qed.

Lemma components_rooted cs : Forall proper cs -> components (rooted cs) = cs.
Proof.
  intros Hcs. unfold components. rewrite split_rooted by assumption.
  cbn [List.filter is_empty negb].
  destruct cs as [|c cs']; [reflexivity|]. cbn [is_empty].
  induction Hcs as [|x xs Hx _ IH]; [reflexivity|].
  destruct Hx as (He & _). destruct x; [congruence|].
  cbn [List.filter is_empty negb]. by rewrite IH.
Qed.

Lemma commonprefix_app hs ps : commonprefix hs (hs ++ ps) = hs.
Proof.
  induction hs as [|h hs IH]; cbn; [by destruct ps|].
  by rewrite str_eqb_refl, IH.
Qed.

(** Joining proper components one by one puts one slash between them. *)
Lemma join_proper a b :
  a <> [] -> endswith a sep = false -> proper b ->
  join a b = a ++ sep ++ b
  /\ endswith (a ++ sep ++ b) sep = false.
Proof.
  intros Ha Hend Hb. destruct (proper_head b Hb) as (x & r & -> & Hx).
  unfold join. split.
  - assert (startswith (x :: r) sep = false) as ->.
    { rewrite sep_is_slash. cbn. by destruct (N.eqb_spec x 47). }
    rewrite Hend. destruct a; [congruence|reflexivity].
  - destruct Hb as (_ & Hno & _).
    unfold endswith. rewrite !rev_app_distr.
    destruct (rev (x :: r)) as [|y t] eqn:E.
    { apply (f_equal (@length N)) in E. rewrite length_rev in E. discriminate. }
    assert (In y (x :: r)).
    { apply in_rev. rewrite E. left. reflexivity. }
    rewrite sep_is_slash. cbn.
    destruct (N.eqb_spec y 47) as [->|]; [contradiction|reflexivity].
Qed.

Lemma join_all_proper p : forall a,
  a <> [] -> endswith a sep = false -> Forall proper p ->
  join_all a p = Py.join sep (a :: p).
Proof.
  unfold join_all.
  induction p as [|b p IH]; intros a Ha Hend Hp; [reflexivity|].
  inversion Hp as [|? ? Hb Hp']; subst.
  destruct (join_proper a b Ha Hend Hb) as [Hj Hend'].
  cbn [foldl]. rewrite Hj.
  rewrite IH; [| by destruct a | exact Hend' | exact Hp'].
  destruct p as [|c p]; cbn [Py.join]; by rewrite <- ?app_assoc.
Qed.

Lemma proper_no_trailing_sep c : proper c -> c <> [] /\ endswith c sep = false.
Proof.
  intros Hc. split; [apply Hc|].
  destruct Hc as (He & Hno & _). unfold endswith.
  destruct (rev c) as [|y t] eqn:E.
  { apply (f_equal (@length N)) in E. rewrite length_rev in E.
    destruct c; [congruence|discriminate]. }
  assert (In y c) by (apply in_rev; rewrite E; left; reflexivity).
  rewrite sep_is_slash. cbn.
  destruct (N.eqb_spec y 47) as [->|]; [contradiction|reflexivity].
Qed.

(** On a POSIX host, the path of [H/p1/.../pn] relative to [H]. *)
Lemma relpath_under cwd hs ps :
  Forall proper hs -> Forall proper ps -> ps <> [] ->
  relpath cwd (rooted (hs ++ ps)) (rooted hs) = Returns (Py.join sep ps).
Proof.
  intros Hhs Hps Hne. unfold relpath.
  change (is_empty (rooted (hs ++ ps))) with false. cbv iota.
  assert (Hall : Forall proper (hs ++ ps)) by (apply Forall_app; auto).
  rewrite !abspath_rooted, !components_rooted by assumption.
  rewrite commonprefix_app, Nat.sub_diag, drop_app_length. cbn [replicate app].
  destruct ps as [|a p]; [congruence|].
  inversion Hps as [|? ? Ha Hp]; subst.
  destruct (proper_no_trailing_sep a Ha) as [Hn He].
  by rewrite join_all_proper.
Qed.

Lemma replace_join (ps : list str) :
  replace 92 47 (Py.join sep ps) = Py.join sep (map (replace 92 47) ps).
Proof.
  induction ps as [|a [|b p] IH]; [reflexivity..|].
  change (Py.join sep (a :: b :: p)) with (a ++ sep ++ Py.join sep (b :: p)).
  unfold replace at 1. rewrite !map_app. fold (replace 92 47).
  unfold replace at 1 in IH. rewrite IH. reflexivity.
Qed.

Lemma replace_removes (s : str) : ~ In 92%N (replace 92 47 s).
Proof.
  unfold replace. intros Hin. apply in_map_iff in Hin as (c & Hc & _).
  destruct (N.eqb_spec c 92); [discriminate|congruence].
Qed.

Lemma join_isabs a b : isabs a = true -> isabs (join a b) = true.
Proof.
  intros Ha. unfold join.
  destruct (startswith b sep) eqn:Hb; [exact Hb|].
  unfold isabs in *. rewrite sep_is_slash in *.
  destruct a as [|x a]; [discriminate|]. cbn [is_empty orb].
  destruct (endswith (x :: a) [47%N]); exact Ha.
Qed.

End PathFacts.

Section TranslationClaim.

(** C2.  (1) The change handler notifies the translation of the path
    of the event: the container directory joined, by the POSIX join,
    with the path relative to the host directory in which every
    backslash is turned into a forward slash, whatever function the
    host platform uses for the relative path.  (2) The translated path
    is absolute when the container directory is, and the part that
    comes from the host has no backslash left.  (3) On a POSIX host, the
    path [H/p1/.../pn] under [H] is translated into the container
    directory joined with [p1/.../pn].  (4) [/home/u/proj/src/main.py]
    under [/home/u/proj] goes to [/app/src/main.py]. *)
Theorem path_translation :
  (forall relpath self ev e,
      __change_handler relpath (self, ev) e
      = (absolute_path <- of_result (translate relpath (host_dir self)
                                       (container_dir self) (host_path ev)) ;;
         notify self absolute_path) e)
  /\ (forall relpath H C P r,
        relpath P H = Returns r ->
        translate relpath H C P = Returns (posixpath.join C (replace 92 47 r))
        /\ ~ In 92%N (replace 92 47 r)
        /\ (posixpath.isabs C = true ->
            posixpath.isabs (posixpath.join C (replace 92 47 r)) = true))
  /\ (forall cwd hs ps C,
        Forall proper hs -> Forall proper ps -> ps <> [] ->
        translate (posixpath.relpath cwd) (rooted hs) C (rooted (hs ++ ps))
        = Returns (posixpath.join C
                     (Py.join posixpath.sep (map (replace 92 47) ps))))
  /\ (forall cwd,
        translate (posixpath.relpath cwd) (lit "/home/u/proj") (lit "/app")
          (lit "/home/u/proj/src/main.py")
        = Returns (lit "/app/src/main.py")).
Proof.
  split; [|split; [|split]].
  - intros. apply change_handler_translate.
  - intros relpath H C P r Hr. unfold translate. rewrite Hr.
    split; [reflexivity|]. split; [apply replace_removes|].
    apply join_isabs.
  - intros cwd hs ps C Hhs Hps Hne. unfold translate.
    rewrite relpath_under by assumption. by rewrite replace_join.
  - intros cwd. vm_compute. reflexivity.
Qed.

End TranslationClaim.

(* ================================================================== *)
(** * The properties at work on sample values *)
(* ================================================================== *)

Section Instances.

Import Transaction.

Lemma stat_failure_aborts_witness :
  fst (notify (Sample.notifier Sample.missing_file) Sample.source_file (env Sample.boot))
  = Returns tt
  /\ execs (snd (notify (Sample.notifier Sample.missing_file) Sample.source_file
                   (env Sample.boot)))
     = execs (env Sample.boot)
       ++ [call (container (Sample.notifier Sample.missing_file))
             (stat_cmd Sample.source_file)]
  /\ log (snd (notify (Sample.notifier Sample.missing_file) Sample.source_file
                 (env Sample.boot)))
     = log (env Sample.boot)
       ++ [notifying (Sample.notifier Sample.missing_file) Sample.source_file;
           command_failure 1].
Proof.
  apply (stat_failure_aborts (Sample.notifier Sample.missing_file) Sample.source_file
           (env Sample.boot)
           {| exit_code := 1; output := blit "stat: cannot stat" |}).
  - reflexivity.
  - simpl. lia.
Defined.

Lemma notify_recovers_failures_witness :
  fst (notify (Sample.notifier Sample.read_only) Sample.source_file (env Sample.boot))
  = Returns tt
  /\ 2%nat = length (issued (env Sample.boot)
                       (snd (notify (Sample.notifier Sample.read_only)
                               Sample.source_file (env Sample.boot))))
  /\ last (log (snd (notify (Sample.notifier Sample.read_only) Sample.source_file
                        (env Sample.boot))))
     = Some (command_failure 1).
Proof.
  apply (proj2 (proj2 (notify_recovers_failures (Sample.notifier Sample.read_only)
                         Sample.source_file (env Sample.boot)))
           1%nat (call Sample.read_only (chmod_cmd (lit "644") Sample.source_file))).
  - vm_compute. reflexivity.
  - vm_compute. reflexivity.
Defined.

(** C4, as stated, fails: [stat] answers with exit code 0 and an output
    that is not UTF-8, and [UnicodeDecodeError] leaves [notify]. *)
Lemma decode_error_escapes_notify :
  answer Sample.garbled_stat (stat_cmd Sample.source_file) (env Sample.boot)
  = Completed {| exit_code := 0; output := [Byte.xff] |}
  /\ fst (notify (Sample.notifier Sample.garbled_stat) Sample.source_file
            (env Sample.boot))
     = Raises UnicodeDecodeError.
Proof. split; vm_compute; reflexivity. Qed.

Lemma success_path_witness :
  execs (snd (notify Sample.web Sample.source_file (env Sample.boot)))
  = execs (env Sample.boot)
    ++ [call (container Sample.web) (stat_cmd Sample.source_file);
        call (container Sample.web) (chmod_cmd (lit "644") Sample.source_file)]
  /\ fst (notify Sample.web Sample.source_file (env Sample.boot)) = Returns tt
  /\ log (snd (notify Sample.web Sample.source_file (env Sample.boot)))
     = log (env Sample.boot)
       ++ [notifying Sample.web Sample.source_file; command_output []].
Proof.
  destruct (success_path Sample.web Sample.source_file (env Sample.boot)
              {| exit_code := 0; output := blit "644" ++ [Sample.newline] |}
              (lit "644" ++ [10%N])) as [Hsent Hdone].
  - reflexivity.
  - reflexivity.
  - vm_compute. reflexivity.
  - split; [exact Hsent|].
    apply (Hdone {| exit_code := 0; output := [] |} []).
    + vm_compute. reflexivity.
    + reflexivity.
    + reflexivity.
Defined.

(** C9, as stated, fails: [stat] and [chmod] both answer with exit code
    0, the output of [chmod] is not empty, and yet [notify] does not
    complete and logs no output. *)
Lemma undecodable_chmod_output :
  answer Sample.garbled_chmod (stat_cmd Sample.source_file) (env Sample.boot)
  = Completed {| exit_code := 0; output := blit "644" ++ [Sample.newline] |}
  /\ answer Sample.garbled_chmod (chmod_cmd (lit "644") Sample.source_file)
       (sent Sample.garbled_chmod (stat_cmd Sample.source_file) (env Sample.boot))
     = Completed {| exit_code := 0; output := [Byte.xff] |}
  /\ fst (notify (Sample.notifier Sample.garbled_chmod) Sample.source_file
            (env Sample.boot))
     = Raises UnicodeDecodeError
  /\ log (snd (notify (Sample.notifier Sample.garbled_chmod) Sample.source_file
                 (env Sample.boot)))
     = [notifying (Sample.notifier Sample.garbled_chmod) Sample.source_file].
Proof. repeat split; vm_compute; reflexivity. Qed.

(** The output [644] followed by a newline gives the mode [644]. *)
Example mode_of_stat_output :
  strip <$> decode_utf8 (blit "644" ++ [Sample.newline]) = Some (lit "644").
Proof. vm_compute. reflexivity. Qed.

(** A container that cannot be reached: the transport error of the first
    command is logged with its traceback and nothing else is sent. *)
Example transport_failure_is_recovered :
  notify (Sample.notifier Sample.unreachable) Sample.source_file (env Sample.boot)
  = (Returns tt,
     {| now := 0 + 0.25;
        log := [notifying (Sample.notifier Sample.unreachable) Sample.source_file;
                transport_failure (Sample.notifier Sample.unreachable)
                  Sample.source_file];
        execs := [call Sample.unreachable (stat_cmd Sample.source_file)] |}).
Proof. vm_compute. reflexivity. Qed.

(** The output of [chmod] is logged also when it is empty: the test
    [if response] of line 121 is on a named tuple. *)
Example empty_output_is_logged :
  log (snd (notify Sample.web Sample.source_file (env Sample.boot)))
  = [notifying Sample.web Sample.source_file; command_output []].
Proof. vm_compute. reflexivity. Qed.



(** The cooldown runs from the completion of the execution, not from
    its start: the first call starts at 0 and completes at 0.5, after two
    commands of 0.25 each; a call
    at 2.1 is dropped, a call at 2.5 is executed. *)
Example cooldown_counts_from_completion :
  map decision
    (run_gate tt 2 (__change_handler Sample.os_path_relpath) 0
       [(0%Q, Sample.saved); (2.1%Q, Sample.saved); (2.5%Q, Sample.saved)]
       Sample.boot)
  = [Executed (Some (0 + 0.25 + 0.25)%Q); Suppressed;
     Executed (Some (2.5 + 0.25 + 0.25)%Q)].
Proof. vm_compute. reflexivity. Qed.


Lemma one_gate_for_all_notifiers_witness :
  handler (decorated_class Sample.os_path_relpath (fresh (dom (cells Sample.boot))))
    (Sample.notifier (Sample.healthy "worker"), Sample.changed)
    (at_time 1
       (snd (handler (decorated_class Sample.os_path_relpath
                        (fresh (dom (cells Sample.boot))))
               Sample.saved
               (snd (class_body Sample.os_path_relpath Sample.boot)))))
  = (Returns tt,
     at_time 1
       (snd (handler (decorated_class Sample.os_path_relpath
                        (fresh (dom (cells Sample.boot))))
               Sample.saved
               (snd (class_body Sample.os_path_relpath Sample.boot))))).
Proof.
  apply (proj2 (one_gate_for_all_notifiers Sample.os_path_relpath Sample.boot)
           Sample.web Sample.changed
           (Sample.notifier (Sample.healthy "worker")) Sample.changed
           (snd (class_body Sample.os_path_relpath Sample.boot))
           (snd (__change_handler Sample.os_path_relpath Sample.saved
                   (env Sample.boot)))
           1%Q).
  - vm_compute. reflexivity.
  - vm_compute. reflexivity.
  - vm_compute. reflexivity.
Defined.

(** C7, as stated, fails: the second notifier, for another container,
    notifies when its event is the only one, and is silenced when the
    first notifier has just notified. *)
Lemma notifiers_share_the_gate :
  map target (execs (env (snd (Sample.second_observer_delivers Sample.boot))))
  = [lit "worker"; lit "worker"]
  /\ map target (execs (env (snd (Sample.both_observers_deliver Sample.boot))))
     = [lit "web"; lit "web"].
Proof. split; vm_compute; reflexivity. Qed.

(** C8, as stated, fails: a created, a modified and a moved directory
    each reach the change handler, which notifies the container. *)
Lemma directory_event_reaches_handler :
  is_directory (Created true (lit "/home/u/proj/sub")) = true
  /\ map cmd (execs (env (snd (Sample.one_event None
                                 (Created true (lit "/home/u/proj/sub"))
                                 Sample.boot))))
     = [stat_cmd (lit "/app/sub"); chmod_cmd (lit "644") (lit "/app/sub")]
  /\ map cmd (execs (env (snd (Sample.one_event None
                                 (Modified true (lit "/home/u/proj/sub"))
                                 Sample.boot))))
     = [stat_cmd (lit "/app/sub"); chmod_cmd (lit "644") (lit "/app/sub")]
  /\ map cmd (execs (env (snd (Sample.one_event None
                                 (Moved true (lit "/home/u/proj/old")
                                    (lit "/home/u/proj/sub"))
                                 Sample.boot))))
     = [stat_cmd (lit "/app/sub"); chmod_cmd (lit "644") (lit "/app/sub")].
Proof. repeat split; vm_compute; reflexivity. Qed.

Lemma directory_events_are_forwarded_witness :
  emit Sample.glob
    (snd (__init__ (decorated_class Sample.os_path_relpath 0)
            (Sample.healthy "web") (lit "/home/u/proj") (lit "/app") None))
    (Created true (lit "/home/u/proj/sub")) Sample.boot
  = handler (decorated_class Sample.os_path_relpath 0)
      (fst (__init__ (decorated_class Sample.os_path_relpath 0)
              (Sample.healthy "web") (lit "/home/u/proj") (lit "/app") None),
       Created true (lit "/home/u/proj/sub"))
      Sample.boot.
Proof.
  apply (proj2 (proj2 (directory_events_are_forwarded Sample.os_path_relpath
                         Sample.glob 0 (Sample.healthy "web")
                         (lit "/home/u/proj") (lit "/app") None))
           (Created true (lit "/home/u/proj/sub")) Sample.boot
           (lit "/home/u/proj/sub")).
  - reflexivity.
  - reflexivity.
  - left. reflexivity.
  - vm_compute. reflexivity.
  - reflexivity.
Defined.

Lemma exclusion_filter_witness :
  snd (emit Sample.glob
         (snd (__init__ (decorated_class Sample.os_path_relpath 0)
                 (Sample.healthy "web") (lit "/home/u/proj") (lit "/app")
                 (Some [lit "*.tmp"])))
         (Created false (lit "/home/u/proj/b.tmp")) Sample.boot)
  = Sample.boot
  /\ emit Sample.glob
       (snd (__init__ (decorated_class Sample.os_path_relpath 0)
               (Sample.healthy "web") (lit "/home/u/proj") (lit "/app")
               (Some [lit "*.tmp"])))
       Sample.changed Sample.boot
     = handler (decorated_class Sample.os_path_relpath 0)
         (fst (__init__ (decorated_class Sample.os_path_relpath 0)
                 (Sample.healthy "web") (lit "/home/u/proj") (lit "/app")
                 (Some [lit "*.tmp"])),
          Sample.changed)
         Sample.boot.
Proof.
  destruct (exclusion_filter Sample.glob
              (decorated_class Sample.os_path_relpath 0)
              (Sample.healthy "web") (lit "/home/u/proj") (lit "/app")
              (Some [lit "*.tmp"])) as (Hdrop & Hpass & _).
  split.
  - apply Hdrop. repeat constructor.
  - apply (Hpass Sample.changed Sample.boot (lit "/home/u/proj/src/main.py")).
    + reflexivity.
    + left. reflexivity.
    + vm_compute. reflexivity.
    + vm_compute. reflexivity.
Defined.

(** C10, as stated, fails: the destination of the move matches the
    exclude pattern, the source does not, and the container is notified
    of the destination. *)
Lemma move_to_excluded_name_is_notified :
  Sample.glob (lit "*.tmp") (lit "/home/u/proj/b.tmp") = true
  /\ map cmd (execs (env (snd (Sample.one_event (Some [lit "*.tmp"])
                                 (Moved false (lit "/home/u/proj/a.txt")
                                    (lit "/home/u/proj/b.tmp"))
                                 Sample.boot))))
     = [stat_cmd (lit "/app/b.tmp"); chmod_cmd (lit "644") (lit "/app/b.tmp")].
Proof. split; vm_compute; reflexivity. Qed.

Lemma proper_name (s : string) :
  negb (is_empty (lit s))
  && negb (existsb (N.eqb 47) (lit s))
  && negb (str_eqb (lit s) posixpath.curdir)
  && negb (str_eqb (lit s) posixpath.pardir) = true ->
  proper (lit s).
Proof.
  intros H. apply andb_prop in H as [H Hdd]. apply andb_prop in H as [H Hd].
  apply andb_prop in H as [He Hs].
  repeat split.
  - intros E. rewrite E in He. discriminate.
  - intros Hin. apply negb_true_iff in Hs.
    assert (existsb (N.eqb 47) (lit s) = true).
    { apply existsb_exists. exists 47%N. split; [exact Hin|apply N.eqb_refl]. }
    congruence.
  - intros E. rewrite E in Hd. discriminate.
  - intros E. rewrite E in Hdd. discriminate.
Qed.

Lemma path_translation_witness :
  translate (posixpath.relpath (lit "/"))
    (rooted [lit "home"; lit "u"; lit "proj"]) (lit "/app")
    (rooted ([lit "home"; lit "u"; lit "proj"] ++ [lit "src"; lit "main.py"]))
  = Returns (posixpath.join (lit "/app")
               (Py.join posixpath.sep
                  (map (replace 92 47) [lit "src"; lit "main.py"]))).
Proof.
  apply (proj1 (proj2 (proj2 path_translation))).
  - repeat constructor; apply proper_name; reflexivity.
  - repeat constructor; apply proper_name; reflexivity.
  - discriminate.
Defined.

End Instances.

(* ================================================================== *)
(** * Further properties of the notification transaction *)
(* ================================================================== *)

Section StripFacts.

Lemma lstrip_split (s : str) :
  exists u, s = u ++ lstrip s /\ Forall (fun c => isspace c = true) u.
Proof.
  induction s as [|c s (u & Hs & Hu)]; [exists []; split; [reflexivity|constructor]|].
  cbn [lstrip]. destruct (isspace c) eqn:E.
  - exists (c :: u). split; [cbn; congruence|]. constructor; assumption.
  - exists []. split; [reflexivity|constructor].
Qed.

Lemma lstrip_head (s : str) c : head (lstrip s) = Some c -> isspace c = false.
Proof.
  induction s as [|x s IH]; cbn [lstrip]; [discriminate|].
  destruct (isspace x) eqn:E; [exact IH|].
  cbn. intros [= <-]. exact E.
Qed.

Lemma last_rev_head {A} (l : list A) : last (rev l) = head l.
Proof. destruct l as [|x l]; [reflexivity|]. cbn [rev]. apply last_snoc. Qed.

Lemma rstrip_split (s : str) :
  exists u, s = rstrip s ++ u /\ Forall (fun c => isspace c = true) u.
Proof.
  destruct (lstrip_split (rev s)) as (u & Hs & Hu).
  exists (rev u). split.
  - unfold rstrip. rewrite <- rev_app_distr, <- Hs. by rewrite rev_involutive.
  - apply Forall_forall. intros c Hc. rewrite Forall_forall in Hu.
    apply Hu. apply list_elem_of_In, in_rev, list_elem_of_In. exact Hc.
Qed.

Lemma rstrip_last (s : str) c : last (rstrip s) = Some c -> isspace c = false.
Proof. unfold rstrip. rewrite last_rev_head. apply lstrip_head. Qed.

Lemma rstrip_head (s : str) c : head (rstrip s) = Some c -> head s = Some c.
Proof.
  destruct (rstrip_split s) as (u & Hs & _). intros H.
  rewrite Hs. destruct (rstrip s); [discriminate|exact H].
Qed.

(** What [strip] returns neither starts nor ends with whitespace. *)
Lemma strip_trimmed (s : str) : trimmed (strip s).
Proof.
  split; intros c H.
  - apply (lstrip_head s). apply rstrip_head. exact H.
  - apply (rstrip_last (lstrip s)). exact H.
Qed.

Lemma lstrip_blank (s : str) : Forall (fun c => isspace c = true) s -> lstrip s = [].
Proof. induction 1 as [|c s Hc _ IH]; [reflexivity|]. cbn. by rewrite Hc. Qed.

Lemma strip_blank (s : str) : Forall (fun c => isspace c = true) s -> strip s = [].
Proof. intros H. unfold strip. by rewrite lstrip_blank. Qed.

Lemma decode_points_ascii (bs : list N) :
  Forall (fun x => (x < 128)%N) bs -> decode_points bs = Some bs.
Proof.
  induction 1 as [|b bs Hb _ IH]; [reflexivity|].
  cbn [decode_points]. apply N.ltb_lt in Hb.
  change (b <? 128)%N with (b <? 0x80)%N in Hb. rewrite Hb, IH. reflexivity.
Qed.

(** ASCII bytes decode to the code points of the same values. *)
Lemma decode_ascii (b : bytes) : ascii_only b -> decode_utf8 b = Some (map Byte.to_N b).
Proof.
  intros H. unfold decode_utf8. apply decode_points_ascii.
  unfold ascii_only in H. induction H; constructor; assumption.
Qed.

End StripFacts.

Section TransactionMore.

Import Transaction.

Variable self : ContainerNotifier.
Variable path : str.

Local Abbreviation box := (container self).

Ltac unfold_worlds :=
  subst;
  repeat match goal with x := _ |- _ => subst x end;
  rewrite ?answer_logged, ?answer_sent_logged in *.

(** Each of the seven ways sends [stat], then at most one [chmod]. *)
Lemma notify_issued e :
  issued e (snd (notify self path e)) = [call box (stat_cmd path)]
  \/ exists mode,
      issued e (snd (notify self path e))
      = [call box (stat_cmd path); call box (chmod_cmd mode path)].
Proof.
  pose proof (notify_run self path e) as R.
  destruct (notify self path e) as [res e']; cbn [fst snd] in *.
  inversion R; unfold_worlds;
    rewrite ?issued_one, ?issued_one_raised, ?issued_two, ?issued_two_raised;
    eauto.
Qed.

Lemma notify_keeps_history e :
  execs (snd (notify self path e)) = execs e ++ issued e (snd (notify self path e)).
Proof.
  pose proof (notify_run self path e) as R.
  destruct (notify self path e) as [res e']; cbn [fst snd] in *.
  inversion R; unfold_worlds;
    rewrite ?issued_one, ?issued_one_raised, ?issued_two, ?issued_two_raised;
    cbn; rewrite <- ?app_assoc; reflexivity.
Qed.

(** X1.  When [chmod] returns a non-zero exit code after a successful
    [stat], [notify] returns normally, both commands were sent and no
    other, and the log ends with the command failure that carries the
    exit code of [chmod]. *)
Theorem chmod_failure_is_recovered (e : Env) (r1 : ExecResult) (s1 : str)
    (r2 : ExecResult) :
  answer box (stat_cmd path) e = Completed r1 ->
  exit_code r1 = 0%Z ->
  decode_utf8 (output r1) = Some s1 ->
  answer box (chmod_cmd (strip s1) path) (sent box (stat_cmd path) e) = Completed r2 ->
  exit_code r2 <> 0%Z ->
  fst (notify self path e) = Returns tt
  /\ execs (snd (notify self path e))
     = execs e ++ [call box (stat_cmd path); call box (chmod_cmd (strip s1) path)]
  /\ log (snd (notify self path e))
     = log e ++ [notifying self path; command_failure (exit_code r2)].
Proof.
  intros A1 C1 D1 A2 C2.
  pose proof (notify_run self path e) as R.
  destruct (notify self path e) as [res e']; cbn [fst snd] in *.
  inversion R; unfold_worlds; try congruence;
    match goal with
    | H : answer _ (stat_cmd path) e = Completed ?r |- _ =>
        assert (r = r1) by congruence; subst r
    end; try congruence;
    match goal with
    | H : decode_utf8 (output r1) = Some ?s |- _ =>
        assert (s = s1) by congruence; subst s
    end; try congruence;
    match goal with
    | H : answer _ (chmod_cmd _ _) _ = Completed ?r |- _ =>
        assert (r = r2) by congruence; subst r
    end; try congruence.
  cbn. rewrite <- !app_assoc. auto.
Qed.

(** X2.  Whatever the container answers, [notify] only adds to the
    commands it received: [stat] on the path, then at most one [chmod] on
    the same path, both privileged and addressed to the notifier's own
    container; and the clock moves on by exactly the time those commands
    took. *)
Theorem notify_sends_stat_then_chmod (e : Env) :
  let e' := snd (notify self path e) in
  execs e' = execs e ++ issued e e'
  /\ Forall (fun c => target c = name box /\ privileged c = true) (issued e e')
  /\ ((issued e e' = [call box (stat_cmd path)]
       /\ now e' = (now e + took box (stat_cmd path) e)%Q)
      \/ exists mode,
          issued e e' = [call box (stat_cmd path); call box (chmod_cmd mode path)]
          /\ now e' = (now e + took box (stat_cmd path) e
                       + took box (chmod_cmd mode path)
                           (sent box (stat_cmd path) e))%Q).
Proof.
  intros e'; subst e'. split; [apply notify_keeps_history|].
  pose proof (notify_run self path e) as R.
  destruct (notify self path e) as [res e']; cbn [fst snd] in *.
  inversion R; unfold_worlds;
    rewrite ?issued_one, ?issued_one_raised, ?issued_two, ?issued_two_raised;
    (split; [repeat constructor|]);
    first [ left; split; reflexivity
          | right; eexists; split; reflexivity ].
Qed.

(** X3.  [notify] only appends to the log: the records already there
    stay, the announcement comes first, at most one record follows it,
    and none follows when an exception leaves [notify]. *)
Theorem notify_appends_to_log (e : Env) :
  exists rest,
    log (snd (notify self path e)) = log e ++ notifying self path :: rest
    /\ (length rest <= 1)%nat
    /\ (forall x, fst (notify self path e) = Raises x -> rest = []).
Proof.
  pose proof (notify_run self path e) as R.
  destruct (notify self path e) as [res e']; cbn [fst snd] in *.
  inversion R; unfold_worlds; cbn [log logged sent];
    first [ exists []; split; [reflexivity|]; split; [cbn; lia|reflexivity]
          | eexists [_]; split; [by rewrite <- app_assoc|];
            split; [cbn; lia|discriminate] ].
Qed.

(** X4.  An exception leaves [notify] exactly when one of the commands
    it sent was answered with exit code 0 and an output that is not
    valid UTF-8; the exception is then [UnicodeDecodeError]. *)
Theorem notify_raises_iff_undecodable (e : Env) :
  let e' := snd (notify self path e) in
  (forall x, fst (notify self path e) = Raises x -> x = UnicodeDecodeError)
  /\ (fst (notify self path e) = Raises UnicodeDecodeError
      <-> exists i c r,
          issued e e' !! i = Some c
          /\ answer_at box e e' i c = Completed r
          /\ exit_code r = 0%Z
          /\ decode_utf8 (output r) = None).
Proof.
  intros e'; subst e'. unfold answer_at.
  pose proof (notify_run self path e) as R.
  destruct (notify self path e) as [res e']; cbn [fst snd] in *.
  inversion R; unfold_worlds;
    rewrite ?issued_one, ?issued_one_raised, ?issued_two, ?issued_two_raised;
    (split; [intros x Hx; congruence|]);
    (split;
     [ try discriminate; intros _
     | intros (i & c & r & Hi & Ha & Hc & Hd);
       try reflexivity; exfalso;
       destruct i as [|[|[|]]]; inversion Hi; subst c;
       unfold answer in *; cbn in *; rewrite ?app_nil_r in *; congruence ]).
  - exists 0%nat. eexists. eexists. split; [reflexivity|].
    unfold answer in *. cbn. rewrite app_nil_r. eauto.
  - exists 1%nat. eexists. eexists. split; [reflexivity|].
    unfold answer in *. cbn in *. eauto.
Qed.

(** X5.  With a container whose commands only print ASCII, [notify]
    always returns normally. *)
Theorem ascii_output_never_raises (e : Env) :
  prints_ascii box ->
  fst (notify self path e) = Returns tt.
Proof.
  intros Hascii.
  pose proof (notify_run self path e) as R.
  destruct (notify self path e) as [res e']; cbn [fst snd] in *.
  inversion R; unfold_worlds; try reflexivity; exfalso;
    match goal with
    | Hd : decode_utf8 (output ?r) = None, Ha : answer _ _ _ = Completed ?r |- _ =>
        apply Hascii in Ha; apply decode_ascii in Ha; congruence
    end.
Qed.

(** X6.  The mode argument of every [chmod] that [notify] sends neither
    starts nor ends with whitespace. *)
Theorem chmod_mode_is_trimmed (e : Env) (c : ExecCall) (mode : str) :
  In c (issued e (snd (notify self path e))) ->
  cmd c = chmod_cmd mode path ->
  trimmed mode.
Proof.
  intros Hin Hcmd.
  pose proof (notify_run self path e) as R.
  destruct (notify self path e) as [res e']; cbn [fst snd] in *.
  inversion R; unfold_worlds;
    rewrite ?issued_one, ?issued_one_raised, ?issued_two, ?issued_two_raised in Hin;
    cbn in Hin; intuition subst; try discriminate;
    match goal with
    | H : cmd (call _ (chmod_cmd ?m _)) = chmod_cmd mode _ |- _ =>
        cbn in H; injection H as <-; apply strip_trimmed
    end.
Qed.

(** X7.  When [stat] returns exit code 0 and an output that is empty or
    all whitespace, [notify] still sends [chmod], with the empty string
    as mode. *)
Theorem blank_stat_output_gives_empty_mode (e : Env) (r1 : ExecResult) (s1 : str) :
  answer box (stat_cmd path) e = Completed r1 ->
  exit_code r1 = 0%Z ->
  decode_utf8 (output r1) = Some s1 ->
  Forall (fun c => isspace c = true) s1 ->
  issued e (snd (notify self path e))
  = [call box (stat_cmd path); call box (chmod_cmd [] path)].
Proof.
  intros A1 C1 D1 Hblank.
  pose proof (notify_run self path e) as R.
  destruct (notify self path e) as [res e']; cbn [fst snd] in *.
  inversion R; unfold_worlds; try congruence;
    match goal with
    | H : answer _ (stat_cmd path) e = Completed ?r |- _ =>
        assert (r = r1) by congruence; subst r
    end; try congruence;
    match goal with
    | H : decode_utf8 (output r1) = Some ?s |- _ =>
        assert (s = s1) by congruence; subst s
    end;
    rewrite ?issued_two, ?issued_two_raised, (strip_blank s1 Hblank);
    reflexivity.
Qed.

End TransactionMore.

(* ================================================================== *)
(** * Further properties of the debounce gate *)
(* ================================================================== *)

Section GateMore.

Context {Args Val : Type}.
Variable PyNone : Val.
Variable bounce_delay : Q.
Variable my_function : Args -> M Env Val.

Local Abbreviation gate := (wrapped PyNone bounce_delay my_function).

(** A call through the gate at [l] leaves every other timestamp alone. *)
Lemma wrapped_frame l l' a w :
  l <> l' -> last_fire l' (snd (gate l a w)) = last_fire l' w.
Proof.
  intros Hne.
  destruct (may_fire bounce_delay (last_fire l w) (now (env w))) eqn:Hgo.
  - destruct (my_function a (env w)) as [[r|x] e1] eqn:Hf.
    + rewrite (wrapped_returns _ _ _ l a w r e1 Hgo Hf). cbn [snd].
      unfold last_fire. cbn [cells]. by rewrite lookup_insert_ne.
    + rewrite (wrapped_raises _ _ _ l a w x e1 Hgo Hf). reflexivity.
  - by rewrite wrapped_suppressed.
Qed.

(** The world outside after a call: untouched, or as the function left
    it. *)
Lemma wrapped_env l a w :
  env (snd (gate l a w)) = env w
  \/ (may_fire bounce_delay (last_fire l w) (now (env w)) = true
      /\ env (snd (gate l a w)) = snd (my_function a (env w))).
Proof.
  destruct (may_fire bounce_delay (last_fire l w) (now (env w))) eqn:Hgo.
  - right. split; [reflexivity|].
    destruct (my_function a (env w)) as [[r|x] e1] eqn:Hf.
    + by rewrite (wrapped_returns _ _ _ l a w r e1 Hgo Hf).
    + by rewrite (wrapped_raises _ _ _ l a w x e1 Hgo Hf).
  - left. by rewrite wrapped_suppressed.
Qed.

(** X8.  An execution that ends with an exception starts no cooldown:
    the exception reaches the caller, the timestamp stays as it was, and
    the next call, however soon it comes, is executed as well. *)
Theorem raising_call_opens_no_window (l : nat) (t1 t2 : Q) (a1 a2 : Args)
    (w : World) (x : Exn) (e1 : Env) :
  may_fire bounce_delay (last_fire l w) t1 = true ->
  my_function a1 (set_now t1 (env w)) = (Raises x, e1) ->
  (t1 <= t2)%Q ->
  let trace := run_gate PyNone bounce_delay my_function l [(t1, a1); (t2, a2)] w in
  exists first second,
    trace = [first; second]
    /\ returned first = Raises x
    /\ last_fire l (after first) = last_fire l w
    /\ decision first = Executed None
    /\ is_executed (decision second) = true.
Proof.
  intros Hgo Hf Hle trace. subst trace. cbn [run_gate].
  rewrite (invoke_executed _ _ _ _ t1 a1 w Hgo). rewrite Hf. cbn [fst snd after].
  set (w1 := {| env := e1; cells := cells w |}).
  assert (Hgo2 : may_fire bounce_delay (last_fire l w1) t2 = true).
  { change (last_fire l w1) with (last_fire l w).
    apply may_fire_true_iff. apply may_fire_true_iff in Hgo as [Hn|(c & Hc & Hd)].
    - left. exact Hn.
    - right. exists c. split; [exact Hc|]. lra. }
  rewrite (invoke_executed _ _ _ _ t2 a2 w1 Hgo2).
  eexists. eexists. split; [reflexivity|]. cbn. auto.
Qed.

(** X9.  Each decoration has a timestamp of its own.  Decorating
    allocates a location that is not in use, so the timestamps of the
    functions decorated before keep their values; two decorations get
    two different locations; and a call through one decorated function
    never changes the timestamp of the other. *)
Theorem decorations_are_independent {Args' Val' : Type} (none' : Val')
    (delay' : Q) (other : Args' -> M Env Val') (w0 : World) :
  let l1 := fresh (dom (cells w0)) in
  let w1 := snd (decorate PyNone bounce_delay my_function w0) in
  let l2 := fresh (dom (cells w1)) in
  let w2 := snd (decorate none' delay' other w1) in
  fst (decorate PyNone bounce_delay my_function w0) = Returns (gate l1)
  /\ fst (decorate none' delay' other w1) = Returns (wrapped none' delay' other l2)
  /\ l1 <> l2
  /\ (forall l, l ∈ dom (cells w0) -> last_fire l w1 = last_fire l w0)
  /\ last_fire l1 w2 = last_fire l1 w1
  /\ (forall a w, last_fire l2 (snd (gate l1 a w)) = last_fire l2 w)
  /\ (forall a w, last_fire l1 (snd (wrapped none' delay' other l2 a w))
                  = last_fire l1 w).
Proof.
  intros l1 w1 l2 w2.
  assert (Hfresh1 : l1 ∉ dom (cells w0)) by apply is_fresh.
  assert (Hfresh2 : l2 ∉ dom (cells w1)) by apply is_fresh.
  assert (Hin : l1 ∈ dom (cells w1)).
  { subst w1. cbn. rewrite dom_insert_L. set_solver. }
  assert (Hne : l1 <> l2) by (intros E; rewrite <- E in Hfresh2; contradiction).
  split; [reflexivity|]. split; [reflexivity|]. split; [exact Hne|].
  split; [|split; [|split]].
  - intros l Hl. subst w1. unfold last_fire. cbn.
    rewrite lookup_insert_ne; [reflexivity|]. intros E. subst l. contradiction.
  - subst w2. unfold last_fire. cbn -[w1].
    rewrite lookup_insert_ne; [reflexivity|]. auto.
  - intros a w. apply wrapped_frame. exact Hne.
  - intros a w.
    destruct (may_fire delay' (last_fire l2 w) (now (env w))) eqn:Hgo.
    + destruct (other a (env w)) as [[r|x] e1] eqn:Hf.
      * rewrite (wrapped_returns _ _ _ l2 a w r e1 Hgo Hf). cbn [snd].
        unfold last_fire. cbn [cells]. rewrite lookup_insert_ne; auto.
      * rewrite (wrapped_raises _ _ _ l2 a w x e1 Hgo Hf). reflexivity.
    + by rewrite wrapped_suppressed.
Qed.

(** X10.  The first call of a function that has just been decorated is
    executed, whatever the delay and whatever the clock reads: it has
    the result and the effect of the function. *)
Theorem first_call_after_decoration_runs (w0 : World) (t : Q) (a : Args) :
  let l := fresh (dom (cells w0)) in
  let w1 := snd (decorate PyNone bounce_delay my_function w0) in
  fst (decorate PyNone bounce_delay my_function w0) = Returns (gate l)
  /\ env w1 = env w0
  /\ (fst (gate l a (at_time t w1)), env (snd (gate l a (at_time t w1))))
     = my_function a (set_now t (env w0)).
Proof.
  intros l w1. split; [reflexivity|]. split; [reflexivity|].
  assert (Hgo : may_fire bounce_delay (last_fire l (at_time t w1))
                  (now (env (at_time t w1))) = true).
  { unfold last_fire. subst w1. cbn. by rewrite lookup_insert_eq. }
  change (env w0) with (env w1).
  destruct (my_function a (set_now t (env w1))) as [[r|x] e1] eqn:Hf.
  - by rewrite (wrapped_returns _ _ _ l a (at_time t w1) r e1 Hgo Hf).
  - by rewrite (wrapped_raises _ _ _ l a (at_time t w1) x e1 Hgo Hf).
Qed.

End GateMore.

(* ================================================================== *)
(** * Further properties of the notifier *)
(* ================================================================== *)

Section NotifierMore.

Import Transaction.

Variable relpath : str -> str -> Result str.
Variable path_match : str -> str -> bool.

(** X11.  A deleted file or directory never makes the notifier act: the
    handler is bound to created, modified and moved events only, so a
    delete event leaves the world as it was, whatever the patterns. *)
Theorem deleted_events_never_notify (cls : Class) c hd cd ex d src w :
  snd (emit path_match (snd (__init__ cls c hd cd ex)) (Deleted d src) w) = w.
Proof.
  rewrite emit_started. unfold dispatch.
  cbn [ignore_directories event_handler snd __init__ andb].
  unfold bind, of_result.
  destruct (match_any_paths path_match _ _) as [[|]|x]; reflexivity.
Qed.

(** What the body of the handler does to the world: nothing when the
    relative path cannot be computed, one [notify] otherwise. *)
Lemma change_handler_env self ev e :
  (exists x, translate relpath (host_dir self) (container_dir self) (host_path ev)
             = Raises x
             /\ __change_handler relpath (self, ev) e = (Raises x, e))
  \/ (exists p, translate relpath (host_dir self) (container_dir self) (host_path ev)
                = Returns p
                /\ __change_handler relpath (self, ev) e = notify self p e).
Proof.
  rewrite change_handler_translate. unfold bind, of_result.
  destruct (translate relpath _ _ _) as [p|x]; eauto.
Qed.

(** X12.  One event, at most one transaction: whatever the event, the
    patterns and the state of the gate, the world outside is left either
    untouched or exactly as one call of [notify] on the translated path
    of the event leaves it, for the notifier's own container. *)
Theorem one_event_one_transaction old_time c hd cd ex ev w :
  let cls := decorated_class relpath old_time in
  let self := fst (__init__ cls c hd cd ex) in
  let o := snd (__init__ cls c hd cd ex) in
  env (snd (emit path_match o ev w)) = env w
  \/ exists p,
      translate relpath hd cd (host_path ev) = Returns p
      /\ env (snd (emit path_match o ev w)) = snd (notify self p (env w)).
Proof.
  intros cls self o. subst o. rewrite emit_started. unfold dispatch.
  cbn [ignore_directories event_handler snd __init__ andb].
  unfold bind, of_result.
  destruct (match_any_paths path_match _ _) as [[|]|x]; [|left; reflexivity..].
  assert (H : env (snd (handler cls (self, ev) w)) = env w
              \/ exists p, translate relpath hd cd (host_path ev) = Returns p
                           /\ env (snd (handler cls (self, ev) w))
                              = snd (notify self p (env w))).
  { unfold cls, decorated_class, handler.
    destruct (wrapped_env tt 2 (__change_handler relpath) old_time (self, ev) w)
      as [Hsame|[_ Hran]]; [left; exact Hsame|].
    destruct (change_handler_env self ev (env w)) as [(x & Ht & Hb)|(p & Ht & Hb)].
    - left. rewrite Hran, Hb. reflexivity.
    - right. exists p. split; [exact Ht|]. rewrite Hran, Hb. reflexivity. }
  destruct ev; cbn [on_created on_modified on_moved on_deleted];
    first [exact H | left; reflexivity].
Qed.

Lemma notify_stat_nonzero self p e r1 :
  answer (container self) (stat_cmd p) e = Completed r1 ->
  exit_code r1 <> 0%Z ->
  notify self p e
  = (Returns tt,
     logged (command_failure (exit_code r1))
       (sent (container self) (stat_cmd p) (logged (notifying self p) e))).
Proof.
  intros A1 C1.
  pose proof (notify_run self p e) as R.
  destruct (notify self p e) as [res e']; cbn [fst snd] in *.
  inversion R; subst;
    repeat match goal with x := _ |- _ => subst x end;
    rewrite ?answer_logged, ?answer_sent_logged in *; congruence.
Qed.

(** X13.  A notification that fails still uses up the cooldown.  When
    the gate is open and [stat] returns a non-zero exit code, the
    decorated method returns normally and stores the clock reading
    taken after the command; an event for any notifier that arrives
    less than 2 after that reading is dropped, so the failed
    notification is not tried again. *)
Theorem failed_notification_starts_cooldown old_time self ev w r r1 t :
  let cls := decorated_class relpath old_time in
  let p := posixpath.join (container_dir self) (replace 92 47 r) in
  let done := (now (env w) + took (container self) (stat_cmd p) (env w))%Q in
  may_fire 2 (last_fire old_time w) (now (env w)) = true ->
  relpath (host_path ev) (host_dir self) = Returns r ->
  answer (container self) (stat_cmd p) (env w) = Completed r1 ->
  exit_code r1 <> 0%Z ->
  (t - done < 2)%Q ->
  fst (handler cls (self, ev) w) = Returns tt
  /\ last_fire old_time (snd (handler cls (self, ev) w)) = Some done
  /\ forall other ev',
      handler cls (other, ev') (at_time t (snd (handler cls (self, ev) w)))
      = (Returns tt, at_time t (snd (handler cls (self, ev) w))).
Proof.
  intros cls p done Hgo Hrel A1 C1 Ht.
  assert (Hbody : __change_handler relpath (self, ev) (env w)
                  = (Returns tt,
                     logged (command_failure (exit_code r1))
                       (sent (container self) (stat_cmd p)
                          (logged (notifying self p) (env w))))).
  { rewrite change_handler_translate. unfold translate, bind, of_result.
    rewrite Hrel. apply notify_stat_nonzero; assumption. }
  unfold cls, decorated_class, handler.
  rewrite (wrapped_returns tt 2 _ old_time (self, ev) w tt _ Hgo Hbody).
  cbn [fst snd]. split; [reflexivity|]. split; [apply last_fire_stored|].
  intros other ev'. apply wrapped_suppressed.
  apply may_fire_false_iff. exists done. split; [|exact Ht].
  unfold at_time. cbn [cells]. apply last_fire_stored.
Qed.

End NotifierMore.

(* ================================================================== *)
(** * Further properties of the path translation *)
(* ================================================================== *)

Section TranslationMore.

Import posixpath.

Lemma proper_plain c : proper c -> plain c.
Proof. intros (He & Hno & _). split; assumption. Qed.

Lemma pardir_plain : plain pardir.
Proof. split; [discriminate|]. cbn. intuition discriminate. Qed.

Lemma plain_head (c : str) : plain c -> exists x r, c = x :: r /\ x <> 47%N.
Proof.
  intros (He & Hno). destruct c as [|x r]; [congruence|].
  exists x, r. split; [reflexivity|]. intros ->. apply Hno. left. reflexivity.
Qed.

Lemma plain_no_trailing_sep c : plain c -> c <> [] /\ endswith c sep = false.
Proof.
  intros (He & Hno). split; [exact He|]. unfold endswith.
  destruct (rev c) as [|y t] eqn:E.
  { apply (f_equal (@length N)) in E. rewrite length_rev in E.
    destruct c; [congruence|discriminate]. }
  assert (In y c) by (apply in_rev; rewrite E; left; reflexivity).
  rewrite sep_is_slash. cbn.
  destruct (N.eqb_spec y 47) as [->|]; [contradiction|reflexivity].
Qed.

Lemma join_plain a b :
  a <> [] -> endswith a sep = false -> plain b ->
  join a b = a ++ sep ++ b /\ endswith (a ++ sep ++ b) sep = false.
Proof.
  intros Ha Hend Hb. destruct (plain_head b Hb) as (x & r & -> & Hx).
  unfold join. split.
  - assert (startswith (x :: r) sep = false) as ->.
    { rewrite sep_is_slash. cbn. by destruct (N.eqb_spec x 47). }
    rewrite Hend. destruct a; [congruence|reflexivity].
  - destruct Hb as (_ & Hno).
    unfold endswith. rewrite !rev_app_distr.
    destruct (rev (x :: r)) as [|y t] eqn:E.
    { apply (f_equal (@length N)) in E. rewrite length_rev in E. discriminate. }
    assert (In y (x :: r)).
    { apply in_rev. rewrite E. left. reflexivity. }
    rewrite sep_is_slash. cbn.
    destruct (N.eqb_spec y 47) as [->|]; [contradiction|reflexivity].
Qed.

Lemma join_all_plain p : forall a,
  a <> [] -> endswith a sep = false -> Forall plain p ->
  join_all a p = Py.join sep (a :: p).
Proof.
  unfold join_all.
  induction p as [|b p IH]; intros a Ha Hend Hp; [reflexivity|].
  inversion Hp as [|? ? Hb Hp']; subst.
  destruct (join_plain a b Ha Hend Hb) as [Hj Hend'].
  cbn [foldl]. rewrite Hj.
  rewrite IH; [| by destruct a | exact Hend' | exact Hp'].
  destruct p as [|c p]; cbn [Py.join]; by rewrite <- ?app_assoc.
Qed.

Lemma commonprefix_fork cs h hs p ps :
  h <> p -> commonprefix (cs ++ h :: hs) (cs ++ p :: ps) = cs.
Proof.
  intros Hne. induction cs as [|c cs IH]; cbn.
  - by rewrite str_eqb_false.
  - by rewrite str_eqb_refl, IH.
Qed.

(** On a POSIX host, the path from [H = /c1/../cn/h/h1/../hk] to a file in
    a branch that leaves [H]'s at [h]. *)
Lemma relpath_fork cwd cs h hs p ps :
  Forall proper (cs ++ h :: hs) -> Forall proper (cs ++ p :: ps) -> h <> p ->
  relpath cwd (rooted (cs ++ p :: ps)) (rooted (cs ++ h :: hs))
  = Returns (Py.join sep (replicate (S (length hs)) pardir ++ p :: ps)).
Proof.
  intros Hh Hp Hne. unfold relpath.
  change (is_empty (rooted (cs ++ p :: ps))) with false. cbv iota.
  rewrite !abspath_rooted, !components_rooted by assumption.
  rewrite commonprefix_fork by assumption.
  rewrite length_app. cbn [length].
  replace (length cs + S (length hs) - length cs)%nat with (S (length hs)) by lia.
  rewrite drop_app_length. cbn [replicate app].
  destruct (plain_no_trailing_sep pardir pardir_plain) as [Hn He].
  rewrite join_all_plain; [reflexivity|assumption..|].
  apply Forall_app. split.
  - apply Forall_forall. intros x Hx. apply elem_of_replicate in Hx as [-> _].
    apply pardir_plain.
  - apply Forall_app in Hp as [_ Hp]. eapply Forall_impl; [exact Hp|].
    intros x. apply proper_plain.
Qed.

Lemma replace_pardirs n :
  map (replace 92 47) (replicate n pardir) = replicate n pardir.
Proof. induction n as [|n IH]; [reflexivity|]. cbn [replicate map]. by rewrite IH. Qed.

(** X14.  On a POSIX host, an event outside the watched directory is
    still translated: for a path that leaves the branch of [host_dir]
    the handler notifies the container directory joined with one [..]
    for each component of [host_dir] below the fork, followed by the
    rest of the path; the join leaves the [..] in the path as they
    are. *)
Theorem translation_outside_host_dir cwd cs h hs p ps C :
  Forall proper (cs ++ h :: hs) -> Forall proper (cs ++ p :: ps) -> h <> p ->
  translate (relpath cwd) (rooted (cs ++ h :: hs)) C (rooted (cs ++ p :: ps))
  = Returns (join C (Py.join sep (replicate (S (length hs)) pardir
                                  ++ map (replace 92 47) (p :: ps)))).
Proof.
  intros Hh Hp Hne. unfold translate.
  rewrite relpath_fork by assumption.
  rewrite replace_join, map_app, replace_pardirs. reflexivity.
Qed.

(** X15.  On a POSIX host, an event on the watched directory itself is
    translated into the container directory joined with [.]. *)
Theorem translation_of_host_dir_itself cwd hs C :
  Forall proper hs ->
  translate (relpath cwd) (rooted hs) C (rooted hs) = Returns (join C curdir).
Proof.
  intros Hh. unfold translate, relpath.
  change (is_empty (rooted hs)) with false. cbv iota.
  rewrite !abspath_rooted, !components_rooted by assumption.
  replace (commonprefix hs hs) with hs
    by (rewrite <- (app_nil_r hs) at 3; by rewrite commonprefix_app).
  rewrite Nat.sub_diag, drop_all. reflexivity.
Qed.

(** X16.  On a POSIX host a file name may start with a backslash.  For
    such a file right under [host_dir] the replaced relative path starts
    with a slash, the POSIX join then drops the container directory, and
    the notified path is the rest alone, whatever the container
    directory is. *)
Theorem backslash_name_drops_container_dir cwd hs name ps C :
  Forall proper hs -> Forall proper ((92%N :: name) :: ps) ->
  translate (relpath cwd) (rooted hs) C (rooted (hs ++ (92%N :: name) :: ps))
  = Returns (Py.join sep (map (replace 92 47) ((92%N :: name) :: ps)))
  /\ isabs (Py.join sep (map (replace 92 47) ((92%N :: name) :: ps))) = true.
Proof.
  intros Hh Hp. unfold translate.
  rewrite relpath_under by (try assumption; discriminate).
  rewrite replace_join.
  assert (Habs : isabs (Py.join sep (map (replace 92 47) ((92%N :: name) :: ps))) = true).
  { destruct ps; reflexivity. }
  split; [|exact Habs].
  unfold join. unfold isabs in Habs. by rewrite Habs.
Qed.

(** X17.  For an absolute host directory and an absolute path the
    translation does not depend on the working directory of the
    process. *)
Theorem translation_ignores_cwd cwd cwd' H C P :
  isabs H = true -> isabs P = true ->
  translate (relpath cwd) H C P = translate (relpath cwd') H C P.
Proof.
  intros HH HP. unfold translate, relpath, abspath. by rewrite HH, HP.
Qed.

End TranslationMore.

(* ================================================================== *)
(** * Streams of calls, and the mode that is applied again *)
(* ================================================================== *)

Section Streams.

Context {Args Val : Type}.
Variable PyNone : Val.
Variable bounce_delay : Q.
Variable my_function : Args -> M Env Val.
Variable old_time : nat.

(** X18.  Dropped calls do not postpone the next execution.  After an
    execution completed at [c], however many calls are dropped inside
    the window, the first call that arrives [bounce_delay] or more after
    [c] is executed, with the effect the function has on the world the
    last execution left. *)
Theorem dropped_calls_do_not_postpone (quiet : list (Q * Args)) (t : Q) (a : Args) :
  forall (w : World) (c : Q),
    last_fire old_time w = Some c ->
    Forall (fun call => (fst call - c < bounce_delay)%Q) quiet ->
    (bounce_delay <= t - c)%Q ->
    exists s,
      run_gate PyNone bounce_delay my_function old_time (quiet ++ [(t, a)]) w
      = run_gate PyNone bounce_delay my_function old_time quiet w ++ [s]
      /\ map decision (run_gate PyNone bounce_delay my_function old_time quiet w)
         = replicate (length quiet) Suppressed
      /\ is_executed (decision s) = true
      /\ (returned s, env (after s)) = my_function a (set_now t (env w)).
Proof.
  induction quiet as [|[t' a'] quiet IH]; intros w c Hc Hall Ht.
  - assert (Hgo : may_fire bounce_delay (last_fire old_time w) t = true).
    { apply may_fire_true_iff. right. exists c. auto. }
    cbn [app run_gate]. rewrite (invoke_executed _ _ _ _ t a w Hgo).
    eexists. split; [reflexivity|]. split; [reflexivity|]. split; [reflexivity|].
    cbn. by destruct (my_function a (set_now t (env w))).
  - inversion Hall as [|? ? Ht' Hrest]; subst. cbn [fst] in Ht'.
    assert (Hno : may_fire bounce_delay (last_fire old_time w) t' = false).
    { apply may_fire_false_iff. exists c. auto. }
    cbn [app run_gate]. rewrite (invoke_suppressed _ _ _ _ t' a' w Hno).
    cbn [after].
    destruct (IH (at_time t' w) c Hc Hrest Ht) as (s & Hrun & Hdec & Hex & Heff).
    exists s. rewrite Hrun. split; [reflexivity|].
    split; [cbn; by rewrite Hdec|]. split; [exact Hex|exact Heff].
Qed.

End Streams.

Section ModeRoundTrip.

Import Transaction.

Lemma lstrip_id (s : str) :
  (forall c, head s = Some c -> isspace c = false) -> lstrip s = s.
Proof.
  destruct s as [|x s]; [reflexivity|]. intros H. cbn.
  by rewrite (H x eq_refl).
Qed.

Lemma strip_line (s : str) :
  Forall (fun c => isspace c = false) s -> strip (s ++ [10%N]) = s.
Proof.
  intros Hs. unfold strip, rstrip.
  assert (Hhead : forall l : str, Forall (fun c => isspace c = false) l ->
                    forall c, head l = Some c -> isspace c = false).
  { intros l Hl c Hc. destruct l; [discriminate|]. injection Hc as <-.
    by inversion Hl. }
  destruct s as [|x s].
  - reflexivity.
  - rewrite (lstrip_id ((x :: s) ++ [10%N])).
    + rewrite rev_app_distr.
      change (rev [10%N] ++ rev (x :: s)) with (10%N :: rev (x :: s)).
      change (lstrip (10%N :: rev (x :: s))) with (lstrip (rev (x :: s))).
      rewrite lstrip_id; [apply rev_involutive|].
      apply Hhead. apply Forall_forall. intros c Hc.
      rewrite Forall_forall in Hs. apply Hs.
      apply list_elem_of_In, in_rev. apply list_elem_of_In in Hc. exact Hc.
    + intros c Hc. injection Hc as <-. by inversion Hs.
Qed.

(** X19.  The permissions are applied again as they were printed: when
    [stat] returns exit code 0 and prints ASCII characters without
    whitespace followed by a newline, the mode of the [chmod] that
    [notify] sends is exactly those characters. *)
Theorem chmod_reapplies_printed_mode (self : ContainerNotifier) (path : str)
    (e : Env) (r1 : ExecResult) (digits : bytes) :
  answer (container self) (stat_cmd path) e = Completed r1 ->
  exit_code r1 = 0%Z ->
  output r1 = digits ++ [Byte.x0a] ->
  ascii_only digits ->
  Forall (fun b => isspace (Byte.to_N b) = false) digits ->
  issued e (snd (notify self path e))
  = [call (container self) (stat_cmd path);
     call (container self) (chmod_cmd (map Byte.to_N digits) path)].
Proof.
  intros A1 C1 Hout Hascii Hplain.
  assert (D1 : decode_utf8 (output r1) = Some (map Byte.to_N digits ++ [10%N])).
  { rewrite Hout, decode_ascii.
    - by rewrite map_app.
    - apply Forall_app. split; [exact Hascii|]. repeat constructor. }
  assert (Hstrip : strip (map Byte.to_N digits ++ [10%N]) = map Byte.to_N digits).
  { apply strip_line. apply Forall_map. exact Hplain. }
  pose proof (notify_run self path e) as R.
  destruct (notify self path e) as [res e']; cbn [fst snd] in *.
  inversion R; subst;
    repeat match goal with x := _ |- _ => subst x end;
    rewrite ?answer_logged, ?answer_sent_logged in *; try congruence;
    match goal with
    | H : answer _ (stat_cmd path) e = Completed ?r |- _ =>
        assert (r = r1) by congruence; subst r
    end; try congruence;
    match goal with
    | H : decode_utf8 (output r1) = Some ?s |- _ =>
        assert (s = map Byte.to_N digits ++ [10%N]) by congruence; subst s
    end;
    rewrite ?issued_two, ?issued_two_raised, Hstrip; reflexivity.
Qed.

End ModeRoundTrip.

(* ================================================================== *)
(** * The further properties at work on sample values *)
(* ================================================================== *)

Section MoreInstances.

Import Transaction.

Lemma chmod_failure_is_recovered_witness :
  fst (notify (Sample.notifier Sample.read_only) Sample.source_file (env Sample.boot))
  = Returns tt
  /\ execs (snd (notify (Sample.notifier Sample.read_only) Sample.source_file
                   (env Sample.boot)))
     = [call Sample.read_only (stat_cmd Sample.source_file);
        call Sample.read_only (chmod_cmd (lit "644") Sample.source_file)]
  /\ log (snd (notify (Sample.notifier Sample.read_only) Sample.source_file
                 (env Sample.boot)))
     = [notifying (Sample.notifier Sample.read_only) Sample.source_file;
        command_failure 1].
Proof.
  apply (chmod_failure_is_recovered (Sample.notifier Sample.read_only)
           Sample.source_file (env Sample.boot)
           {| exit_code := 0; output := blit "644" ++ [Sample.newline] |}
           (lit "644" ++ [10%N])
           {| exit_code := 1; output := blit "chmod: read-only file system" |}).
  - reflexivity.
  - reflexivity.
  - vm_compute. reflexivity.
  - vm_compute. reflexivity.
  - simpl. lia.
Defined.

Lemma notify_raises_iff_undecodable_witness :
  fst (notify Sample.garbled Sample.source_file (env Sample.boot))
  = Raises UnicodeDecodeError.
Proof.
  apply (proj2 (proj2 (notify_raises_iff_undecodable Sample.garbled
                         Sample.source_file (env Sample.boot)))).
  exists 0%nat, (call Sample.garbled_stat (stat_cmd Sample.source_file)),
    {| exit_code := 0; output := [Byte.xff] |}.
  repeat split; vm_compute; reflexivity.
Defined.

Lemma healthy_prints_ascii (n : string) : prints_ascii (Sample.healthy n).
Proof.
  intros history argv p r H. unfold Sample.healthy, Sample.scripted in H.
  cbn [runtime] in H.
  destruct argv as [|c argv]; [|destruct (str_eqb c (lit "stat"))];
    cbn in H; injection H as <-; unfold ascii_only; cbn;
    repeat (constructor; [reflexivity|]); constructor.
Qed.

Lemma ascii_output_never_raises_witness :
  fst (notify Sample.web Sample.source_file (env Sample.boot)) = Returns tt.
Proof.
  apply (ascii_output_never_raises Sample.web Sample.source_file (env Sample.boot)).
  apply healthy_prints_ascii.
Defined.

Lemma chmod_mode_is_trimmed_witness : trimmed (lit "644").
Proof.
  apply (chmod_mode_is_trimmed Sample.web Sample.source_file (env Sample.boot)
           (call (Sample.healthy "web") (chmod_cmd (lit "644") Sample.source_file))).
  - vm_compute. right. left. reflexivity.
  - reflexivity.
Defined.

Lemma blank_stat_output_gives_empty_mode_witness :
  issued (env Sample.boot)
    (snd (notify (Sample.notifier Sample.blank_stat) Sample.source_file
            (env Sample.boot)))
  = [call Sample.blank_stat (stat_cmd Sample.source_file);
     call Sample.blank_stat (chmod_cmd [] Sample.source_file)].
Proof.
  apply (blank_stat_output_gives_empty_mode (Sample.notifier Sample.blank_stat)
           Sample.source_file (env Sample.boot)
           {| exit_code := 0; output := [Sample.newline] |} [10%N]).
  - reflexivity.
  - reflexivity.
  - reflexivity.
  - repeat constructor.
Defined.

Lemma chmod_reapplies_printed_mode_witness :
  issued (env Sample.boot)
    (snd (notify Sample.web Sample.source_file (env Sample.boot)))
  = [call (Sample.healthy "web") (stat_cmd Sample.source_file);
     call (Sample.healthy "web") (chmod_cmd (lit "644") Sample.source_file)].
Proof.
  apply (chmod_reapplies_printed_mode Sample.web Sample.source_file (env Sample.boot)
           {| exit_code := 0; output := blit "644" ++ [Sample.newline] |}
           (blit "644")).
  - reflexivity.
  - reflexivity.
  - reflexivity.
  - unfold ascii_only. cbn. repeat (constructor; [reflexivity|]). constructor.
  - cbn. repeat (constructor; [reflexivity|]). constructor.
Defined.

Lemma raising_call_opens_no_window_witness :
  exists first second,
    run_gate tt 2 (__change_handler Sample.os_path_relpath) 0
      [(0%Q, (Sample.garbled, Sample.changed)); (0.1%Q, Sample.saved)] Sample.boot
    = [first; second]
    /\ returned first = Raises UnicodeDecodeError
    /\ last_fire 0 (after first) = last_fire 0 Sample.boot
    /\ decision first = Executed None
    /\ is_executed (decision second) = true.
Proof.
  apply (raising_call_opens_no_window tt 2 (__change_handler Sample.os_path_relpath)
           0 0%Q 0.1%Q (Sample.garbled, Sample.changed) Sample.saved Sample.boot
           UnicodeDecodeError
           (snd (__change_handler Sample.os_path_relpath
                   (Sample.garbled, Sample.changed) (set_now 0 (env Sample.boot))))).
  - reflexivity.
  - vm_compute. reflexivity.
  - apply Qle_bool_imp_le. reflexivity.
Defined.

Lemma decorations_are_independent_witness :
  last_fire 0
    (snd (decorate tt 2 (__change_handler Sample.os_path_relpath)
            Sample.after_first_event))
  = last_fire 0 Sample.after_first_event.
Proof.
  destruct (decorations_are_independent tt 2 (__change_handler Sample.os_path_relpath)
              tt 2 (__change_handler Sample.os_path_relpath)
              Sample.after_first_event) as (_ & _ & _ & Hkept & _).
  apply Hkept. apply elem_of_dom. eexists. vm_compute. reflexivity.
Defined.

Lemma dropped_calls_do_not_postpone_witness :
  exists s,
    run_gate tt 2 (__change_handler Sample.os_path_relpath) 0
      ([(1%Q, Sample.saved); (1.5%Q, Sample.saved)] ++ [(2.5%Q, Sample.saved)])
      Sample.after_first_event
    = run_gate tt 2 (__change_handler Sample.os_path_relpath) 0
        [(1%Q, Sample.saved); (1.5%Q, Sample.saved)] Sample.after_first_event
      ++ [s]
    /\ is_executed (decision s) = true.
Proof.
  destruct (dropped_calls_do_not_postpone tt 2
              (__change_handler Sample.os_path_relpath) 0
              [(1%Q, Sample.saved); (1.5%Q, Sample.saved)] 2.5%Q Sample.saved
              Sample.after_first_event (now (env Sample.after_first_event)))
    as (s & Hrun & _ & Hex & _).
  - vm_compute. reflexivity.
  - repeat constructor.
  - apply Qle_bool_imp_le. vm_compute. reflexivity.
  - exists s. split; assumption.
Defined.

Lemma failed_notification_starts_cooldown_witness :
  fst (handler (decorated_class Sample.os_path_relpath 0)
         (Sample.broken, Sample.changed) Sample.boot)
  = Returns tt
  /\ last_fire 0
       (snd (handler (decorated_class Sample.os_path_relpath 0)
               (Sample.broken, Sample.changed) Sample.boot))
     = Some (0 + 0.25)%Q.
Proof.
  destruct (failed_notification_starts_cooldown Sample.os_path_relpath 0
              Sample.broken Sample.changed Sample.boot (lit "src/main.py")
              {| exit_code := 1; output := blit "stat: cannot stat" |} 1%Q)
    as (Hret & Hstamp & _).
  - reflexivity.
  - vm_compute. reflexivity.
  - reflexivity.
  - simpl. lia.
  - vm_compute. reflexivity.
  - split; [exact Hret|exact Hstamp].
Defined.

Lemma translation_outside_host_dir_witness :
  translate (posixpath.relpath (lit "/"))
    (rooted ([lit "home"; lit "u"] ++ [lit "proj"])) (lit "/app")
    (rooted ([lit "home"; lit "u"] ++ [lit "other"; lit "f.txt"]))
  = Returns (lit "/app/../other/f.txt").
Proof.
  apply (translation_outside_host_dir (lit "/") [lit "home"; lit "u"]
           (lit "proj") [] (lit "other") [lit "f.txt"] (lit "/app")).
  - repeat constructor; apply proper_name; reflexivity.
  - repeat constructor; apply proper_name; reflexivity.
  - intros H. vm_compute in H. discriminate H.
Defined.

Lemma translation_of_host_dir_itself_witness :
  translate (posixpath.relpath (lit "/"))
    (rooted [lit "home"; lit "u"; lit "proj"]) (lit "/app")
    (rooted [lit "home"; lit "u"; lit "proj"])
  = Returns (lit "/app/.").
Proof.
  apply (translation_of_host_dir_itself (lit "/")
           [lit "home"; lit "u"; lit "proj"] (lit "/app")).
  repeat constructor; apply proper_name; reflexivity.
Defined.

Lemma backslash_name_drops_container_dir_witness :
  translate (posixpath.relpath (lit "/"))
    (rooted [lit "home"; lit "u"; lit "proj"]) (lit "/app")
    (rooted ([lit "home"; lit "u"; lit "proj"] ++ [92%N :: lit "x.txt"]))
  = Returns (lit "/x.txt").
Proof.
  apply (proj1 (backslash_name_drops_container_dir (lit "/")
                  [lit "home"; lit "u"; lit "proj"] (lit "x.txt") [] (lit "/app")
                  ltac:(repeat constructor; apply proper_name; reflexivity)
                  ltac:(constructor;
                        [change (proper (lit "\x.txt")); apply proper_name; reflexivity
                        |constructor]))).
Defined.

Lemma translation_ignores_cwd_witness :
  translate (posixpath.relpath (lit "/")) (lit "/home/u/proj") (lit "/app")
    (lit "/home/u/proj/a.txt")
  = translate (posixpath.relpath (lit "/var/run")) (lit "/home/u/proj") (lit "/app")
      (lit "/home/u/proj/a.txt").
Proof.
  apply (translation_ignores_cwd (lit "/") (lit "/var/run") (lit "/home/u/proj")
           (lit "/app") (lit "/home/u/proj/a.txt")).
  - reflexivity.
  - reflexivity.
Defined.

End MoreInstances.
